(** * gifmaker: the conversion orchestrator and its presentation controller

    A shallow embedding of [src/composables/useFFmpeg.ts] (the composable
    [useFFmpeg]) and of the script part of [src/App.vue], followed by the
    properties of the specification that concern them.

    Conventions of the embedding.
    - A JavaScript [number] that the program only stores, compares and prints
      (sizes, widths, frame rates, loop counts) is an integer [Z]; the
      number the progress handler rounds is a rational [Q], the exact value
      of a finite double.
    - A JavaScript string is a [string] of 8-bit characters holding its
      UTF-8 encoding.  The program only splits names at ["."] and matches
      them against ASCII patterns, and both operations act the same on the
      encoding: bytes of a multi-byte character are all above 127.
    - The Vue refs of the two files live in one record [Store]; every
      assignment [x.value = v] is logged, together with every call that
      leaves the program (dynamic imports, the engine, the URL registry),
      in a chronological list of events.  Console output is not modelled.
    - The engine and the browser are an [oracle]: a function from the events
      so far and the call issued to the reply.  Theorems quantify over every
      oracle.
    - Calls of the orchestrator and handlers of the component run one after
      the other, as the specification requires of its callers; only the
      progress handler of the engine runs while a call is pending. *)

From Stdlib Require Import String Ascii ZArith List Lia Bool QArith Qround DecimalString.
Import ListNotations.
Local Open Scope string_scope.
Local Open Scope Z_scope.

(** ** JavaScript values *)

Definition bytes := list Byte.byte.

(** [String(n)] and [`${n}`] for an integer [n]: plain decimal digits, as
    JavaScript prints every integer below 10^21 in magnitude (beyond that
    it prints an exponent, and such integers are outside this model). *)
Definition String_of_number (n : Z) : string :=
  NilZero.string_of_int (Z.to_int n).

(** [Math.round(x)]: the nearest integer, ties towards plus infinity. *)
Definition Math_round (x : Q) : Z := Qfloor (x + (1 # 2))%Q.

(** A thrown value: an [Error] object with its message, or anything else. *)
Inductive exn : Type :=
| JsError (message : string)
| JsOther (shown : string).

(** How a call ends: it returns a value or throws. *)
Inductive completion (A : Type) : Type :=
| Ok (a : A)
| Threw (e : exn).
Arguments Ok {A} a.
Arguments Threw {A} e.

(** [a ?? b]: only [undefined] and [null] give way to [b]. *)
Definition nullish {A : Type} (a : option A) (b : A) : A :=
  match a with Some v => v | None => b end.

(** [s || d] for a string or [undefined]/[null]: the empty string is falsy. *)
Definition or_string (s : option string) (d : string) : string :=
  match s with
  | Some EmptyString => d
  | Some v => v
  | None => d
  end.

(** [s.split(sep)] for a one-character separator: never an empty array. *)
Fixpoint split (sep : ascii) (s : string) : list string :=
  match s with
  | EmptyString => [EmptyString]
  | String c rest =>
      if Ascii.eqb c sep then EmptyString :: split sep rest
      else match split sep rest with
           | seg :: segs => String c seg :: segs
           | [] => [String c EmptyString]
           end
  end.

(** [a.pop()]: the last element, [undefined] on an empty array. *)
Fixpoint pop {A : Type} (l : list A) : option A :=
  match l with
  | [] => None
  | [x] => Some x
  | _ :: t => pop t
  end.

(** Case folding of a regular expression with flag [i] and without flag
    [u]: a character is compared through its upper-case form, and a
    character above 127 never folds onto an ASCII one. *)
Definition canonicalize (c : ascii) : ascii :=
  let n := nat_of_ascii c in
  if (Nat.leb 97 n && Nat.leb n 122)%bool then ascii_of_nat (n - 32) else c.

(** Matching a literal at the start of [s], case-insensitively: the rest of
    [s] after the literal. *)
Fixpoint match_literal (lit s : string) : option string :=
  match lit, s with
  | EmptyString, _ => Some s
  | String a lit', String b s' =>
      if Ascii.eqb (canonicalize a) (canonicalize b) then match_literal lit' s'
      else None
  | String _ _, EmptyString => None
  end.

Definition VIDEO_EXTENSIONS : list string := ["mov"; "mp4"; "avi"; "webm"].

(** [/\.(mov|mp4|avi|webm)$/i] tried at the start of [s]: a dot, one of the
    alternatives, then the end of the input. *)
Definition video_regex_here (s : string) : bool :=
  match s with
  | String c rest =>
      Ascii.eqb c "."
      && existsb (fun alt => match match_literal alt rest with
                             | Some EmptyString => true
                             | _ => false
                             end) VIDEO_EXTENSIONS
  | EmptyString => false
  end.

(** [/\.(mov|mp4|avi|webm)$/i.test(s)], also the truth value of
    [s.match(...)]: the pattern is tried at every start position. *)
Fixpoint video_regex_test (s : string) : bool :=
  video_regex_here s
  || match s with
     | String _ rest => video_regex_test rest
     | EmptyString => false
     end.

(** ** Data of useFFmpeg.ts *)

Inductive QualityPreset : Type := low | medium | high | original.

Record ConversionOptions : Type := {
  opt_fps : option Z;
  opt_quality : option QualityPreset;
  opt_loop : option Z
}.

(** The default argument [options = {}]. *)
Definition no_options : ConversionOptions :=
  {| opt_fps := None; opt_quality := None; opt_loop := None |}.

Record Settings : Type := { width : Z; colors : Z; fps : Z }.

Definition QUALITY_SETTINGS (q : QualityPreset) : Settings :=
  match q with
  | low => {| width := 320; colors := 64; fps := 10 |}
  | medium => {| width := 480; colors := 128; fps := 12 |}
  | high => {| width := 720; colors := 256; fps := 15 |}
  | original => {| width := 1280; colors := 256; fps := 12 |}
  end.

Record Blob : Type := { blob_data : bytes; blob_type : string }.

Definition blob_size (b : Blob) : Z := Z.of_nat (length (blob_data b)).

Record ConversionResult : Type := { blob : Blob; url : string; size : Z }.

Definition MAX_FILE_SIZE : Z := 100 * 1024 * 1024.

Definition SUPPORTED_FORMATS : list string :=
  ["video/mp4"; "video/quicktime"; "video/x-msvideo"; "video/webm"].

(** The part of a browser [File] the program reads. *)
Record File : Type := { file_name : string; file_type : string; file_size : Z }.

(** [arr.includes(s)] on an array of strings. *)
Definition includes (arr : list string) (s : string) : bool :=
  existsb (String.eqb s) arr.

Definition UNSUPPORTED_FORMAT_MESSAGE : string :=
  "Nieobsługiwany format pliku. Użyj MP4, MOV, AVI lub WebM.".

(** The template literal of the size error; the quotient is exact. *)
Definition FILE_TOO_LARGE_MESSAGE : string :=
  "Plik jest za duży. Maksymalny rozmiar to "
  ++ String_of_number (MAX_FILE_SIZE / 1024 / 1024) ++ "MB.".

Definition UnsupportedFormatError : exn := JsError UNSUPPORTED_FORMAT_MESSAGE.
Definition FileTooLargeError : exn := JsError FILE_TOO_LARGE_MESSAGE.

Definition validateFile (file : File) : completion unit :=
  if (negb (includes SUPPORTED_FORMATS (file_type file))
      && negb (video_regex_test (file_name file)))%bool
  then Threw UnsupportedFormatError
  else if file_size file >? MAX_FILE_SIZE
  then Threw FileTooLargeError
  else Ok tt.

(** The encode parameters [convertToGif] derives from its options in its
    first four lines: [quality = "high"], [loop = 0] by default, and
    [customFps ?? settings.fps]. *)
Record Derived : Type := {
  d_fps : Z; d_width : Z; d_colors : Z; d_loop : Z
}.

Definition derive (options : ConversionOptions) : Derived :=
  let quality := nullish (opt_quality options) high in
  let customFps := opt_fps options in
  let loop := nullish (opt_loop options) 0 in
  let settings := QUALITY_SETTINGS quality in
  let fps := nullish customFps (fps settings) in
  {| d_fps := fps; d_width := width settings;
     d_colors := colors settings; d_loop := loop |}.

(** The template literal [vf]. *)
Definition filter_expr (fps width colors : Z) : string :=
  "fps=" ++ String_of_number fps
  ++ ",scale=" ++ String_of_number width
  ++ ":-1:flags=lanczos,split[s0][s1];[s0]palettegen=max_colors="
  ++ String_of_number colors
  ++ "[p];[s1][p]paletteuse=dither=floyd_steinberg".

(** [file.name.split(".").pop() || "mp4"] and [`input.${inputExt}`]. *)
Definition inputExt (file : File) : string :=
  or_string (pop (split "." (file_name file))) "mp4".

Definition inputName (file : File) : string := "input." ++ inputExt file.

Definition outputName : string := "output.gif".

(** The argument array handed to [instance.exec]. *)
Definition exec_args (file : File) (options : ConversionOptions) : list string :=
  let d := derive options in
  ["-i"; inputName file; "-vf";
   filter_expr (d_fps d) (d_width d) (d_colors d);
   "-loop"; String_of_number (d_loop d); outputName].

(** ** The store of refs, the outside world and the event log *)

Local Open Scope list_scope.

(** An engine object made by [new FFmpeg()], known by the number the
    outside world gives it. *)
Definition instance := nat.

Inductive toast_type : Type := success | failure.

(** The refs of [useFFmpeg] ([ffmpeg] to [isLoaded]), the refs of App.vue
    ([selectedFile] to [selectedQuality]), and the engine objects on which
    the progress handler of [loadFFmpeg] has been registered. *)
Record Store : Type := {
  ffmpeg : option instance;
  isLoading : bool;
  isConverting : bool;
  progress : Z;
  error : option string;
  isLoaded : bool;
  selectedFile : option File;
  isDragOver : bool;
  result : option ConversionResult;
  toast : option (string * toast_type);
  selectedQuality : QualityPreset;
  listeners : list instance
}.

(** An assignment [x.value = v] to one of the refs. *)
Inductive write : Type :=
| W_ffmpeg (v : option instance)
| W_isLoading (v : bool)
| W_isConverting (v : bool)
| W_progress (v : Z)
| W_error (v : option string)
| W_isLoaded (v : bool)
| W_selectedFile (v : option File)
| W_isDragOver (v : bool)
| W_result (v : option ConversionResult)
| W_toast (v : option (string * toast_type))
| W_selectedQuality (v : QualityPreset).

Definition set_ffmpeg v (s : Store) : Store :=
  {| ffmpeg := v; isLoading := isLoading s; isConverting := isConverting s;
     progress := progress s; error := error s; isLoaded := isLoaded s;
     selectedFile := selectedFile s; isDragOver := isDragOver s;
     result := result s; toast := toast s;
     selectedQuality := selectedQuality s; listeners := listeners s |}.
Definition set_isLoading v (s : Store) : Store :=
  {| ffmpeg := ffmpeg s; isLoading := v; isConverting := isConverting s;
     progress := progress s; error := error s; isLoaded := isLoaded s;
     selectedFile := selectedFile s; isDragOver := isDragOver s;
     result := result s; toast := toast s;
     selectedQuality := selectedQuality s; listeners := listeners s |}.
Definition set_isConverting v (s : Store) : Store :=
  {| ffmpeg := ffmpeg s; isLoading := isLoading s; isConverting := v;
     progress := progress s; error := error s; isLoaded := isLoaded s;
     selectedFile := selectedFile s; isDragOver := isDragOver s;
     result := result s; toast := toast s;
     selectedQuality := selectedQuality s; listeners := listeners s |}.
Definition set_progress v (s : Store) : Store :=
  {| ffmpeg := ffmpeg s; isLoading := isLoading s; isConverting := isConverting s;
     progress := v; error := error s; isLoaded := isLoaded s;
     selectedFile := selectedFile s; isDragOver := isDragOver s;
     result := result s; toast := toast s;
     selectedQuality := selectedQuality s; listeners := listeners s |}.
Definition set_error v (s : Store) : Store :=
  {| ffmpeg := ffmpeg s; isLoading := isLoading s; isConverting := isConverting s;
     progress := progress s; error := v; isLoaded := isLoaded s;
     selectedFile := selectedFile s; isDragOver := isDragOver s;
     result := result s; toast := toast s;
     selectedQuality := selectedQuality s; listeners := listeners s |}.
Definition set_isLoaded v (s : Store) : Store :=
  {| ffmpeg := ffmpeg s; isLoading := isLoading s; isConverting := isConverting s;
     progress := progress s; error := error s; isLoaded := v;
     selectedFile := selectedFile s; isDragOver := isDragOver s;
     result := result s; toast := toast s;
     selectedQuality := selectedQuality s; listeners := listeners s |}.
Definition set_selectedFile v (s : Store) : Store :=
  {| ffmpeg := ffmpeg s; isLoading := isLoading s; isConverting := isConverting s;
     progress := progress s; error := error s; isLoaded := isLoaded s;
     selectedFile := v; isDragOver := isDragOver s;
     result := result s; toast := toast s;
     selectedQuality := selectedQuality s; listeners := listeners s |}.
Definition set_isDragOver v (s : Store) : Store :=
  {| ffmpeg := ffmpeg s; isLoading := isLoading s; isConverting := isConverting s;
     progress := progress s; error := error s; isLoaded := isLoaded s;
     selectedFile := selectedFile s; isDragOver := v;
     result := result s; toast := toast s;
     selectedQuality := selectedQuality s; listeners := listeners s |}.
Definition set_result v (s : Store) : Store :=
  {| ffmpeg := ffmpeg s; isLoading := isLoading s; isConverting := isConverting s;
     progress := progress s; error := error s; isLoaded := isLoaded s;
     selectedFile := selectedFile s; isDragOver := isDragOver s;
     result := v; toast := toast s;
     selectedQuality := selectedQuality s; listeners := listeners s |}.
Definition set_toast v (s : Store) : Store :=
  {| ffmpeg := ffmpeg s; isLoading := isLoading s; isConverting := isConverting s;
     progress := progress s; error := error s; isLoaded := isLoaded s;
     selectedFile := selectedFile s; isDragOver := isDragOver s;
     result := result s; toast := v;
     selectedQuality := selectedQuality s; listeners := listeners s |}.
Definition set_selectedQuality v (s : Store) : Store :=
  {| ffmpeg := ffmpeg s; isLoading := isLoading s; isConverting := isConverting s;
     progress := progress s; error := error s; isLoaded := isLoaded s;
     selectedFile := selectedFile s; isDragOver := isDragOver s;
     result := result s; toast := toast s;
     selectedQuality := v; listeners := listeners s |}.
Definition add_listener (i : instance) (s : Store) : Store :=
  {| ffmpeg := ffmpeg s; isLoading := isLoading s; isConverting := isConverting s;
     progress := progress s; error := error s; isLoaded := isLoaded s;
     selectedFile := selectedFile s; isDragOver := isDragOver s;
     result := result s; toast := toast s;
     selectedQuality := selectedQuality s; listeners := i :: listeners s |}.

Definition apply_write (w : write) : Store -> Store :=
  match w with
  | W_ffmpeg v => set_ffmpeg v
  | W_isLoading v => set_isLoading v
  | W_isConverting v => set_isConverting v
  | W_progress v => set_progress v
  | W_error v => set_error v
  | W_isLoaded v => set_isLoaded v
  | W_selectedFile v => set_selectedFile v
  | W_isDragOver v => set_isDragOver v
  | W_result v => set_result v
  | W_toast v => set_toast v
  | W_selectedQuality v => set_selectedQuality v
  end.

(** The state of [useFFmpeg()] and of the component at creation. *)
Definition initial_store : Store :=
  {| ffmpeg := None; isLoading := false; isConverting := false;
     progress := 0; error := None; isLoaded := false;
     selectedFile := None; isDragOver := false; result := None;
     toast := None; selectedQuality := high; listeners := [] |}.

(** The calls that leave the program and can fail. *)
Inductive call : Type :=
| ImportFFmpeg                                   (* import("@ffmpeg/ffmpeg") *)
| ImportUtil                                     (* import("@ffmpeg/util") *)
| NewFFmpeg                                      (* new FFmpeg() *)
| On (i : instance) (event_name : string)        (* instance.on(name, handler) *)
| ToBlobURL (address mime : string)
| Load (i : instance) (coreURL wasmURL : string)
| FetchFile (file : File)
| WriteFile (i : instance) (path : string) (data : bytes)
| Exec (i : instance) (args : list string)
| ReadFile (i : instance) (path : string)
| DeleteFile (i : instance) (path : string)
| CreateObjectURL (b : Blob).

Definition value (c : call) : Type :=
  match c with
  | ImportFFmpeg | ImportUtil => unit
  | NewFFmpeg => instance
  | On _ _ => unit
  | ToBlobURL _ _ => string
  | Load _ _ _ => bool
  | FetchFile _ => bytes
  | WriteFile _ _ _ => bool
  | Exec _ _ => Z
  | ReadFile _ _ => bytes
  | DeleteFile _ _ => bool
  | CreateObjectURL _ => string
  end.

(** What comes back from a call: the progress notifications the engine
    raised while the call was pending, then a thrown value or the value
    returned.  A notification is the engine object and the number the
    handler obtains as [p * 100] from the fraction [p] reported: that
    product is a floating-point operation, left to the outside world, and
    taken to be finite. *)
Record reply (c : call) : Type := {
  notes : list (instance * Q);
  outcome : exn + value c
}.
Arguments notes {c} r.
Arguments outcome {c} r.

(** What the log records.  [EvProgress xs]: while a call was pending the
    progress handler of [loadFFmpeg] ran once for each product [p * 100] of
    [xs], in order, each time assigning
    [progress.value = Math.round(p * 100)]. *)
Inductive event : Type :=
| EvCall (c : call) (r : reply c)
| EvWrite (w : write)
| EvProgress (xs : list Q)
| EvRevoke (address : string)          (* URL.revokeObjectURL(address) *)
| EvTimeout (ms : Z).                  (* setTimeout(handler, ms) *)

Definition oracle : Type := list event -> forall c : call, reply c.

Definition world : Type := (Store * list event)%type.

(** ** The monad of the program: oracle, store, log and exceptions *)

Definition M (A : Type) : Type := oracle -> world -> completion A * world.

Definition ret {A : Type} (a : A) : M A := fun _ w => (Ok a, w).

Definition throw {A : Type} (e : exn) : M A := fun _ w => (Threw e, w).

Definition bind {A B : Type} (m : M A) (f : A -> M B) : M B :=
  fun o w =>
    match m o w with
    | (Ok a, w1) => f a o w1
    | (Threw e, w1) => (Threw e, w1)
    end.

Declare Scope prog_scope.
Delimit Scope prog_scope with prog.
Notation "x <- m ;; k" := (bind m (fun x => k))
  (at level 61, m at next level, right associativity) : prog_scope.
Notation "m ;; k" := (bind m (fun _ => k))
  (at level 61, right associativity) : prog_scope.
Local Open Scope prog_scope.

Definition lift {A : Type} (r : completion A) : M A := fun _ w => (r, w).

Definition read {A : Type} (field : Store -> A) : M A :=
  fun _ w => (Ok (field (fst w)), w).

Definition assign (w : write) : M unit :=
  fun _ '(s, tr) => (Ok tt, (apply_write w s, tr ++ [EvWrite w])).

Definition emit (e : event) : M unit :=
  fun _ '(s, tr) => (Ok tt, (s, tr ++ [e])).

(** The notifications that reach a handler. *)
Definition heard (ls : list instance) (ns : list (instance * Q)) : list Q :=
  map snd (filter (fun n => existsb (Nat.eqb (fst n)) ls) ns).

(** The value of [progress] after the handler
    [({ progress: p }) => { progress.value = Math.round(p * 100) }]
    has run for each product [p * 100] of [xs]; [Math.round] is exact on
    the number it is given. *)
Definition final_progress (xs : list Q) (old : Z) : Z :=
  fold_left (fun _ x => Math_round x) xs old.

(** The handler runs once for every notification heard, in order. *)
Definition deliver (ns : list (instance * Q)) (w : world) : world :=
  let ps := heard (listeners (fst w)) ns in
  (set_progress (final_progress ps (progress (fst w))) (fst w),
   snd w ++ [EvProgress ps]).

Definition settle {c : call} (r : reply c) : completion (value c) :=
  match outcome r with
  | inl e => Threw e
  | inr v => Ok v
  end.

(** A synchronous call: no handler runs before it returns. *)
Definition invoke (c : call) : M (value c) :=
  fun o '(s, tr) =>
    let r := o tr c in
    (settle r, (s, tr ++ [EvCall c r])).

(** [await] of a call: the handlers of the notifications raised meanwhile
    run before the program resumes. *)
Definition await (c : call) : M (value c) :=
  fun o '(s, tr) =>
    let r := o tr c in
    (settle r, deliver (notes r) (s, tr ++ [EvCall c r])).

(** [try { body } catch (e) { handler } finally { final }]. *)
Definition try_catch_finally {A : Type}
    (body : M A) (handler : exn -> M A) (final : M unit) : M A :=
  fun o w =>
    let (r1, w1) := body o w in
    let (r2, w2) := match r1 with
                    | Ok a => (Ok a, w1)
                    | Threw e => handler e o w1
                    end in
    let (r3, w3) := final o w2 in
    match r3 with
    | Ok _ => (r2, w3)
    | Threw e => (Threw e, w3)
    end.

(** [try { body } catch { handler }]. *)
Definition try_catch {A : Type} (body : M A) (handler : exn -> M A) : M A :=
  fun o w =>
    match body o w with
    | (Ok a, w1) => (Ok a, w1)
    | (Threw e, w1) => handler e o w1
    end.

(** From now on the handler of [instance.on("progress", ...)] runs for the
    notifications of [i]. *)
Definition listen (i : instance) : M unit :=
  fun _ '(s, tr) => (Ok tt, (add_listener i s, tr)).

(** ** The functions of useFFmpeg.ts *)

Definition baseURL : string := "https://unpkg.com/@ffmpeg/core@0.12.6/dist/esm".

Definition LOAD_ERROR_MESSAGE : string :=
  "Nie udało się załadować FFmpeg. Sprawdź połączenie internetowe.".

Definition UNKNOWN_ERROR_MESSAGE : string :=
  "Wystąpił nieznany błąd podczas konwersji.".

(** [ffmpeg.value && isLoaded.value]. *)
Definition engine_ready (s : Store) : bool :=
  match ffmpeg s with
  | Some _ => isLoaded s
  | None => false
  end.

(** [!ffmpeg.value || !isLoaded.value]. *)
Definition engine_missing (s : Store) : bool :=
  match ffmpeg s with
  | None => true
  | Some _ => negb (isLoaded s)
  end.

Definition loadFFmpeg : M unit :=
  ready <- read engine_ready ;;
  if ready then ret tt
  else
    assign (W_isLoading true) ;;
    assign (W_error None) ;;
    try_catch_finally
      (await ImportFFmpeg ;;
       await ImportUtil ;;
       instance <- invoke NewFFmpeg ;;
       invoke (On instance "log") ;;
       invoke (On instance "progress") ;;
       listen instance ;;
       coreURL <- await (ToBlobURL (baseURL ++ "/ffmpeg-core.js")%string "text/javascript") ;;
       wasmURL <- await (ToBlobURL (baseURL ++ "/ffmpeg-core.wasm")%string "application/wasm") ;;
       await (Load instance coreURL wasmURL) ;;
       assign (W_ffmpeg (Some instance)) ;;
       assign (W_isLoaded true))
      (fun e =>
         assign (W_error (Some LOAD_ERROR_MESSAGE)) ;;
         throw e)
      (assign (W_isLoading false)).

(** [e instanceof Error ? e.message : "..."]. *)
Definition error_message (e : exn) : string :=
  match e with
  | JsError message => message
  | JsOther _ => UNKNOWN_ERROR_MESSAGE
  end.

(** What calling a method of [null] throws ([ffmpeg.value!] erases to
    [ffmpeg.value]). *)
Definition NullMethodError : exn :=
  JsError "Cannot read properties of null (reading 'writeFile')".

Definition convertToGif (file : File) (options : ConversionOptions)
  : M ConversionResult :=
  assign (W_error None) ;;
  assign (W_progress 0) ;;
  assign (W_isConverting true) ;;
  try_catch_finally
    (lift (validateFile file) ;;
     missing <- read engine_missing ;;
     (if missing then loadFFmpeg else ret tt) ;;
     instance <- read ffmpeg ;;
     await ImportUtil ;;
     match instance with
     | None => throw NullMethodError
     | Some instance =>
         data <- await (FetchFile file) ;;
         await (WriteFile instance (inputName file) data) ;;
         await (Exec instance (exec_args file options)) ;;
         data <- await (ReadFile instance outputName) ;;
         let blob := {| blob_data := data; blob_type := "image/gif" |} in
         url <- invoke (CreateObjectURL blob) ;;
         await (DeleteFile instance (inputName file)) ;;
         await (DeleteFile instance outputName) ;;
         ret {| blob := blob; url := url; size := blob_size blob |}
     end)
    (fun e =>
       let message := error_message e in
       assign (W_error (Some message)) ;;
       throw e)
    (assign (W_isConverting false) ;;
     assign (W_progress 0)).

Definition cleanup (address : string) : M unit := emit (EvRevoke address).

(** ** The functions of App.vue *)

Definition showToast (message : string) (type : toast_type) : M unit :=
  assign (W_toast (Some (message, type))) ;;
  emit (EvTimeout 4000).

Definition selectFile (file : File) : M unit :=
  r <- read result ;;
  match r with
  | Some res => cleanup (url res) ;; assign (W_result None)
  | None => ret tt
  end ;;
  assign (W_selectedFile (Some file)).

Definition clearFile : M unit :=
  assign (W_selectedFile None) ;;
  r <- read result ;;
  match r with
  | Some res => cleanup (url res) ;; assign (W_result None)
  | None => ret tt
  end.

Definition handleConvert : M unit :=
  f <- read selectedFile ;;
  match f with
  | None => ret tt
  | Some file =>
      try_catch
        (q <- read selectedQuality ;;
         res <- convertToGif file
                  {| opt_fps := None; opt_quality := Some q; opt_loop := None |} ;;
         assign (W_result (Some res)) ;;
         showToast "Konwersja zakończona pomyślnie!" success)
        (fun _ =>
           err <- read error ;;
           showToast (or_string err "Wystąpił błąd podczas konwersji") failure)
  end.

Definition onUnmounted : M unit :=
  r <- read result ;;
  match r with
  | Some res => cleanup (url res)
  | None => ret tt
  end.

(** ** Sample worlds *)

Definition default_value (c : call) : value c :=
  match c with
  | ImportFFmpeg | ImportUtil => tt
  | NewFFmpeg => 1%nat
  | On _ _ => tt
  | ToBlobURL _ _ => "blob:asset"
  | Load _ _ _ => true
  | FetchFile _ => [Byte.x00; Byte.x01]
  | WriteFile _ _ _ => true
  | Exec _ _ => 0
  | ReadFile _ _ => [Byte.x47; Byte.x49; Byte.x46]
  | DeleteFile _ _ => true
  | CreateObjectURL _ => "blob:gif"
  end.

Definition returns {c : call} (ns : list (instance * Q)) (v : value c) : reply c :=
  {| notes := ns; outcome := inr v |}.

Definition throws {c : call} (ns : list (instance * Q)) (e : exn) : reply c :=
  {| notes := ns; outcome := inl e |}.

(** Every call succeeds; the engine reports progress during [exec]. *)
Definition obliging : oracle :=
  fun _ c =>
    match c with
    | Exec i _ => returns [(i, 25 # 1); (i, 50 # 1); (i, 100 # 1)]%Q (default_value c)
    | _ => returns [] (default_value c)
    end.

(** The network is down: the assets of the engine cannot be fetched. *)
Definition offline : oracle :=
  fun _ c =>
    match c with
    | ToBlobURL _ _ => throws [] (JsError "Failed to fetch")
    | _ => returns [] (default_value c)
    end.

(** The engine loads and then fails in [exec], after some progress. *)
Definition crashing : oracle :=
  fun _ c =>
    match c with
    | Exec i _ => throws [(i, 100 # 3)]%Q (JsOther "abort")
    | _ => returns [] (default_value c)
    end.

(** The engine object is made and then fails to load. *)
Definition crashing_load : oracle :=
  fun _ c =>
    match c with
    | Load _ _ _ => throws [] (JsError "wasm")
    | _ => returns [] (default_value c)
    end.

Definition clip_mp4 : File :=
  {| file_name := "clip.mp4"; file_type := "video/mp4";
     file_size := 5 * 1024 * 1024 |}.
Definition notes_txt : File :=
  {| file_name := "notes.txt"; file_type := "text/plain";
     file_size := 150 * 1024 * 1024 |}.

Definition huge_mov : File :=
  {| file_name := "HOLIDAY.MOV"; file_type := "";
     file_size := 150 * 1024 * 1024 |}.

(** A file without an extension, accepted by its declared type. *)
Definition clip : File :=
  {| file_name := "clip"; file_type := "video/mp4"; file_size := 1024 |}.

Definition medium_options : ConversionOptions :=
  {| opt_fps := None; opt_quality := Some medium; opt_loop := None |}.

(** ** Vocabulary of the properties *)

(** Options that name a preset (or none) and no frame rate. *)
Definition no_override (q : option QualityPreset) (l : option Z) : ConversionOptions :=
  {| opt_fps := None; opt_quality := q; opt_loop := l |}.

Definition with_override (v : Z) (q : option QualityPreset) (l : option Z)
  : ConversionOptions :=
  {| opt_fps := Some v; opt_quality := q; opt_loop := l |}.

(** The two stages of the filter expression, as the specification tells
    them: resample, scale and split; then palette generation and use. *)
Definition resample_scale_split (fps width : Z) : string :=
  ("fps=" ++ String_of_number fps ++ ",scale=" ++ String_of_number width
   ++ ":-1:flags=lanczos,split[s0][s1]")%string.

Definition palette_stage (colors : Z) : string :=
  ("[s0]palettegen=max_colors=" ++ String_of_number colors
   ++ "[p];[s1][p]paletteuse=dither=floyd_steinberg")%string.

(** Upper-casing letter by letter, the comparison key of a
    case-insensitive match. *)
Fixpoint fold_case (s : string) : string :=
  match s with
  | EmptyString => EmptyString
  | String c rest => String (canonicalize c) (fold_case rest)
  end.

(** The name ends in a dot followed by one of the four extensions, in any
    mix of upper and lower case. *)
Definition ends_with_video_extension (name : string) : Prop :=
  exists stem ext known,
    name = (stem ++ "." ++ ext)%string
    /\ In known VIDEO_EXTENSIONS
    /\ fold_case ext = fold_case known.

Definition declared_type_supported (file : File) : Prop :=
  In (file_type file) SUPPORTED_FORMATS.

(** The name has no dot in it. *)
Definition dotless (name : string) : Prop :=
  forall c, In c (list_ascii_of_string name) -> c <> "."%char.

(** The last of the pieces of the name between dots. *)
Definition last_segment (name : string) : string :=
  last (split "." name) EmptyString.

(** Every run of [m] from [w] ends with a result and a world in [Q]. *)
Definition post {A : Type} (m : M A) (o : oracle) (w : world)
    (Q : completion A -> world -> Prop) : Prop :=
  Q (fst (m o w)) (snd (m o w)).

(** Observations of a log. *)
Definition calls (tr : list event) : list call :=
  flat_map (fun ev => match ev with EvCall c _ => [c] | _ => [] end) tr.

Definition failures (tr : list event) : list exn :=
  flat_map (fun ev => match ev with
                      | EvCall _ r => match outcome r with
                                      | inl e => [e]
                                      | inr _ => []
                                      end
                      | _ => []
                      end) tr.

Definition exec_commands (tr : list event) : list (list string) :=
  flat_map (fun ev => match ev with
                      | EvCall (Exec _ args) _ => [args]
                      | _ => []
                      end) tr.

Definition written_paths (tr : list event) : list string :=
  flat_map (fun ev => match ev with
                      | EvCall (WriteFile _ path _) _ => [path]
                      | _ => []
                      end) tr.

Definition revocations (tr : list event) : list string :=
  flat_map (fun ev => match ev with EvRevoke a => [a] | _ => [] end) tr.

Definition loading_writes (tr : list event) : list bool :=
  flat_map (fun ev => match ev with
                      | EvWrite (W_isLoading b) => [b]
                      | _ => []
                      end) tr.

(** The engine objects whose [load] succeeded. *)
Definition loaded_engines (tr : list event) : list instance :=
  flat_map (fun ev => match ev with
                      | EvCall (Load i _ _) r =>
                          match outcome r with
                          | inl _ => []
                          | inr _ => [i]
                          end
                      | _ => []
                      end) tr.

(** The engine objects made by [new FFmpeg()]. *)
Definition created_engines (tr : list event) : list instance :=
  flat_map (fun ev => match ev with
                      | EvCall NewFFmpeg r =>
                          match outcome r with
                          | inl _ => []
                          | inr i => [i]
                          end
                      | _ => []
                      end) tr.

(** The engine objects asked to work on a conversion. *)
Definition engine_users (tr : list event) : list instance :=
  flat_map (fun ev => match ev with
                      | EvCall (WriteFile i _ _) _ => [i]
                      | EvCall (Exec i _) _ => [i]
                      | EvCall (ReadFile i _) _ => [i]
                      | EvCall (DeleteFile i _) _ => [i]
                      | _ => []
                      end) tr.

(** A client of the orchestrator: requests served one after the other, a
    failed one being caught by the caller. *)
Inductive request : Type :=
| LoadRequest
| ConvertRequest (file : File) (options : ConversionOptions).

Definition serve_one (q : request) : M unit :=
  try_catch
    match q with
    | LoadRequest => loadFFmpeg
    | ConvertRequest file options => convertToGif file options ;; ret tt
    end
    (fun _ => ret tt).

Fixpoint serve (qs : list request) : M unit :=
  match qs with
  | [] => ret tt
  | q :: qs' => serve_one q ;; serve qs'
  end.

(** The life of the component: user actions one after the other, then the
    unmount hook. *)
Inductive action : Type :=
| SelectFile (file : File)
| ClearFile
| HandleConvert.

Definition perform (a : action) : M unit :=
  match a with
  | SelectFile file => selectFile file
  | ClearFile => clearFile
  | HandleConvert => handleConvert
  end.

Fixpoint interact (acts : list action) : M unit :=
  match acts with
  | [] => ret tt
  | a :: acts' => perform a ;; interact acts'
  end.

Definition lifetime (acts : list action) : M unit :=
  interact acts ;; onUnmounted.

(** The engine in the store is the one engine loaded so far, and every
    engine call of the log went to it. *)
Definition engine_inv (st : Store) (d : list event) : Prop :=
  match ffmpeg st with
  | None => loaded_engines d = [] /\ engine_users d = []
  | Some i =>
      isLoaded st = true /\ loaded_engines d = [i]
      /\ forall u, In u (engine_users d) -> u = i
  end.

(** How many times the URL [u] is revoked in a log. *)
Definition released (u : string) (d : list event) : nat :=
  count_occ string_dec (revocations d) u.

(** An orchestrator whose engine is in place. *)
Definition warm : Store :=
  add_listener 1%nat (set_isLoaded true (set_ffmpeg (Some 1%nat) initial_store)).

(** The result of the sample conversions under [obliging]. *)
Definition sample_gif : ConversionResult :=
  {| blob := {| blob_data := [Byte.x47; Byte.x49; Byte.x46];
                blob_type := "image/gif" |};
     url := "blob:gif"; size := 3 |}.

Definition medium_run : completion ConversionResult * world :=
  convertToGif clip_mp4 medium_options obliging (initial_store, []).

Definition clip_run : completion ConversionResult * world :=
  convertToGif clip no_options obliging (initial_store, []).

Definition crashed_run : completion ConversionResult * world :=
  convertToGif clip_mp4 no_options crashing (initial_store, []).

Definition cold_load : completion unit * world :=
  loadFFmpeg obliging (initial_store, []).

Definition busy_day : list request :=
  [ConvertRequest notes_txt no_options; ConvertRequest clip_mp4 medium_options;
   LoadRequest; ConvertRequest clip no_options].

Definition busy_user : list action :=
  [HandleConvert; SelectFile clip; HandleConvert; ClearFile].

(** ** The rest of App.vue *)

(** [s.startsWith(p)]. *)
Definition startsWith (s p : string) : bool := String.prefix p s.

Definition isVideoFile (file : File) : bool :=
  startsWith (file_type file) "video/" || video_regex_test (file_name file).

Definition DROP_ERROR_MESSAGE : string :=
  "Wybierz plik wideo (MP4, MOV, AVI, WebM)".

(** The handlers of the drop zone.  [e.preventDefault()] acts on the
    browser's event object, outside the store; [file] is
    [e.dataTransfer?.files[0]], absent when nothing was dragged. *)
Definition handleDragOver : M unit := assign (W_isDragOver true).

Definition handleDragLeave : M unit := assign (W_isDragOver false).

Definition handleDrop (file : option File) : M unit :=
  assign (W_isDragOver false) ;;
  match file with
  | Some f => if isVideoFile f then selectFile f
              else showToast DROP_ERROR_MESSAGE failure
  | None => showToast DROP_ERROR_MESSAGE failure
  end.

(** The handler of the file input; [file] is [input.files?.[0]].  The
    final [input.value = ""] resets the input element, outside the store. *)
Definition handleFileInput (file : option File) : M unit :=
  match file with
  | Some f => selectFile f
  | None => ret tt
  end.

(** [x.toFixed(1)] for a number below 10^21: the integer [n] of tenths
    nearest to the magnitude of [x], the larger one on a tie, printed with
    one digit after the point. *)
Definition toFixed1 (x : Q) : string :=
  let negative := negb (Qle_bool 0 x) in
  let y := if negative then (- x)%Q else x in
  let n := Qfloor (y * 10 + (1 # 2))%Q in
  ((if negative then "-" else "")
   ++ String_of_number (n / 10) ++ "." ++ String_of_number (n mod 10))%string.

(** The local [sizeStr] of [fileInfo] and of [resultInfo].  The quotients
    by 1024 are exact in floating point for a byte count. *)
Definition sizeStr (size : Z) : string :=
  if size <? 1024 * 1024
  then (toFixed1 (inject_Z size / 1024)%Q ++ " KB")%string
  else (toFixed1 (inject_Z size / 1024 / 1024)%Q ++ " MB")%string.

Record FileInfo : Type := { info_name : string; info_size : string }.

Definition fileInfo (s : Store) : option FileInfo :=
  match selectedFile s with
  | None => None
  | Some f => Some {| info_name := file_name f; info_size := sizeStr (file_size f) |}
  end.

Definition resultInfo (s : Store) : option string :=
  match result s with
  | None => None
  | Some res => Some (sizeStr (size res))
  end.

Definition isProcessing (s : Store) : bool := isLoading s || isConverting s.

(** [selectedFile.value && !isProcessing.value], as a truth value. *)
Definition canConvert (s : Store) : bool :=
  match selectedFile s with
  | Some _ => negb (isProcessing s)
  | None => false
  end.

Record QualityOption : Type := {
  q_value : QualityPreset; q_label : string; q_desc : string
}.

Definition qualityOptions : list QualityOption :=
  [ {| q_value := low; q_label := "Niska"; q_desc := "320px • mały plik" |};
    {| q_value := medium; q_label := "Średnia"; q_desc := "480px • balans" |};
    {| q_value := high; q_label := "Wysoka"; q_desc := "720px • dobra jakość" |};
    {| q_value := original; q_label := "Max"; q_desc := "1280px • duży plik" |} ].

(** [[^.]*] to the end of the input. *)
Fixpoint no_dot (s : string) : bool :=
  match s with
  | EmptyString => true
  | String c rest => negb (Ascii.eqb c ".") && no_dot rest
  end.

(** [/\.[^.]+$/] tried at the start of [s]: a dot, then one character or
    more, none of them a dot, up to the end of the input. *)
Definition extension_here (s : string) : bool :=
  match s with
  | String c rest =>
      Ascii.eqb c "."
      && match rest with
         | EmptyString => false
         | String _ _ => no_dot rest
         end
  | EmptyString => false
  end.

(** [name.replace(/\.[^.]+$/, ".gif")]: the leftmost match, found by
    trying the start positions in order, is replaced; without a match the
    name is returned as it is. *)
Fixpoint gif_name (name : string) : string :=
  if extension_here name then ".gif"
  else match name with
       | EmptyString => EmptyString
       | String c rest => String c (gif_name rest)
       end.

(** The anchor element [downloadGif] makes, appends to the document,
    clicks and removes. *)
Record anchor : Type := { href : string; download : string }.

(** The value returned is the anchor clicked, if any. *)
Definition downloadGif : M (option anchor) :=
  r <- read result ;;
  f <- read selectedFile ;;
  match r, f with
  | Some res, Some file =>
      ret (Some {| href := url res; download := gif_name (file_name file) |})
  | _, _ => ret None
  end.

(** What the user and the browser can make the component do; [Choose] is
    the click on a quality button, [selectedQuality = option.value]. *)
Inductive gesture : Type :=
| DragOver
| DragLeave
| Drop (file : option File)
| Pick (file : option File)
| Choose (q : QualityPreset)
| Clear
| Convert
| Download.

Definition react (g : gesture) : M unit :=
  match g with
  | DragOver => handleDragOver
  | DragLeave => handleDragLeave
  | Drop file => handleDrop file
  | Pick file => handleFileInput file
  | Choose q => assign (W_selectedQuality q)
  | Clear => clearFile
  | Convert => handleConvert
  | Download => downloadGif ;; ret tt
  end.

Fixpoint session (gs : list gesture) : M unit :=
  match gs with
  | [] => ret tt
  | g :: gs' => react g ;; session gs'
  end.

(** ** More vocabulary *)

(** The paths of the [deleteFile] calls issued. *)
Definition deletions (tr : list event) : list string :=
  flat_map (fun ev => match ev with
                      | EvCall (DeleteFile _ path) _ => [path]
                      | _ => []
                      end) tr.

(** The calls that threw. *)
Definition failed_calls (tr : list event) : list call :=
  flat_map (fun ev => match ev with
                      | EvCall c r => match outcome r with
                                      | inl _ => [c]
                                      | inr _ => []
                                      end
                      | _ => []
                      end) tr.

(** The object URLs handed out, each with its blob. *)
Definition object_urls (tr : list event) : list (Blob * string) :=
  flat_map (fun ev => match ev with
                      | EvCall (CreateObjectURL b) r =>
                          match outcome r with
                          | inl _ => []
                          | inr u => [(b, u)]
                          end
                      | _ => []
                      end) tr.

(** The bytes handed over by [fetchFile], and those read back from the
    engine. *)
Definition fetched (tr : list event) : list bytes :=
  flat_map (fun ev => match ev with
                      | EvCall (FetchFile _) r =>
                          match outcome r with
                          | inl _ => []
                          | inr data => [data]
                          end
                      | _ => []
                      end) tr.

Definition read_back (tr : list event) : list bytes :=
  flat_map (fun ev => match ev with
                      | EvCall (ReadFile _ _) r =>
                          match outcome r with
                          | inl _ => []
                          | inr data => [data]
                          end
                      | _ => []
                      end) tr.

(** The asset URLs [toBlobURL] gave. *)
Definition asset_urls (tr : list event) : list string :=
  flat_map (fun ev => match ev with
                      | EvCall (ToBlobURL _ _) r =>
                          match outcome r with
                          | inl _ => []
                          | inr u => [u]
                          end
                      | _ => []
                      end) tr.

(** The values assigned to [error], in order. *)
Definition error_writes (tr : list event) : list (option string) :=
  flat_map (fun ev => match ev with
                      | EvWrite (W_error v) => [v]
                      | _ => []
                      end) tr.

(** The toasts shown and the timers started. *)
Definition toasts (tr : list event) : list (option (string * toast_type)) :=
  flat_map (fun ev => match ev with
                      | EvWrite (W_toast v) => [v]
                      | _ => []
                      end) tr.

Definition timers (tr : list event) : list Z :=
  flat_map (fun ev => match ev with EvTimeout ms => [ms] | _ => [] end) tr.

(** The calls of a load, for the engine object [i] and the asset URLs the
    browser gave. *)
Definition load_calls (i : instance) (coreURL wasmURL : string) : list call :=
  [ImportFFmpeg; ImportUtil; NewFFmpeg; On i "log"; On i "progress";
   ToBlobURL (baseURL ++ "/ffmpeg-core.js")%string "text/javascript";
   ToBlobURL (baseURL ++ "/ffmpeg-core.wasm")%string "application/wasm";
   Load i coreURL wasmURL].

(** The calls of the transcoding proper. *)
Definition transcode_calls (i : instance) (file : File)
    (options : ConversionOptions) (data : bytes) (res : ConversionResult)
  : list call :=
  [ImportUtil; FetchFile file; WriteFile i (inputName file) data;
   Exec i (exec_args file options); ReadFile i outputName;
   CreateObjectURL (blob res);
   DeleteFile i (inputName file); DeleteFile i outputName].

(** The browser never hands out an object URL that has been revoked. *)
Definition fresh_urls (o : oracle) : Prop :=
  forall tr b u,
    outcome (o tr (CreateObjectURL b)) = inr u -> ~ In u (revocations tr).

(** No URL has been revoked twice; the result on display, if any, has not
    been revoked and comes with a selected file. *)
Definition tidy_urls (st : Store) (tr : list event) : Prop :=
  NoDup (revocations tr)
  /\ match result st with
     | Some res => ~ In (url res) (revocations tr) /\ selectedFile st <> None
     | None => True
     end.

Definition matroska : File :=
  {| file_name := "movie.mkv"; file_type := "video/x-matroska";
     file_size := 2048 |}.

Definition archive_mp4 : File :=
  {| file_name := "trip.2024.Mp4"; file_type := ""; file_size := 700000 |}.

Definition busy_gestures : list gesture :=
  [DragOver; Drop (Some clip_mp4); Choose medium; Convert; Download;
   Pick (Some clip); Convert; Drop (Some notes_txt); Clear; Drop None].

(** A browser whose object URLs are longer than any URL revoked so far,
    hence new. *)
Fixpoint join (l : list string) : string :=
  match l with
  | [] => EmptyString
  | a :: l' => (a ++ join l')%string
  end.

Definition sincere : oracle :=
  fun tr c =>
    match c as c0 return reply c0 with
    | CreateObjectURL b =>
        @returns (CreateObjectURL b) []
          ("blob:" ++ join (revocations tr))%string
    | c0 => obliging tr c0
    end.

Definition warm_run : completion ConversionResult * world :=
  convertToGif clip_mp4 medium_options obliging (warm, []).

Definition offline_run : completion ConversionResult * world :=
  convertToGif clip_mp4 no_options offline (initial_store, []).

(** The component with [clip_mp4] selected. *)
Definition selected : Store := set_selectedFile (Some clip_mp4) initial_store.

Definition offline_load : completion unit * world :=
  loadFFmpeg offline (initial_store, []).

Definition offline_reload : completion unit * world :=
  loadFFmpeg offline (snd offline_load).

Definition crashed_convert : completion ConversionResult * world :=
  convertToGif clip_mp4 (no_override (Some (selectedQuality selected)) None)
    crashing (selected, []).

Definition crashed_click : completion unit * world :=
  handleConvert crashing (selected, []).

(** The component after a first result was shown and cleared and a second
    one made, under [sincere]. *)
Definition second_result : world :=
  snd (session [Drop (Some clip_mp4); Convert; Clear; Pick (Some clip); Convert]
         sincere (initial_store, [])).

Definition failed_load : completion unit * world :=
  loadFFmpeg crashing_load (initial_store, []).

Definition dotted : File :=
  {| file_name := "holiday.2024."; file_type := "video/webm"; file_size := 10 |}.

Definition drop_and_convert : list gesture :=
  [DragOver; Drop (Some archive_mp4); Convert].

(** * Properties *)

(** ** Strings, names and the format check *)

Lemma string_app_assoc (a b c : string) :
  ((a ++ b) ++ c = a ++ (b ++ c))%string.
Proof. induction a as [|x a IH]; simpl; [reflexivity | now rewrite IH]. Qed.

Lemma includes_In (arr : list string) (s : string) :
  includes arr s = true <-> In s arr.
Proof.
  unfold includes. rewrite existsb_exists. split.
  - intros (x & Hx & E). apply String.eqb_eq in E. now subst.
  - intros H. exists s. split; [assumption | apply String.eqb_refl].
Qed.

Lemma match_literal_whole (lit s : string) :
  match_literal lit s = Some EmptyString <-> fold_case s = fold_case lit.
Proof.
  revert s. induction lit as [|a lit IH]; intros [|b s]; simpl;
    try (split; [reflexivity | reflexivity]);
    try (split; discriminate).
  destruct (Ascii.eqb_spec (canonicalize a) (canonicalize b)) as [E|N].
  - rewrite IH, E. split; [intros ->; reflexivity | now intros [= ->]].
  - split; [discriminate | intros [= E _]; now symmetry in E].
Qed.

Lemma video_regex_here_spec (s : string) :
  video_regex_here s = true <->
  exists ext known,
    s = ("." ++ ext)%string /\ In known VIDEO_EXTENSIONS
    /\ fold_case ext = fold_case known.
Proof.
  destruct s as [|c rest]; cbn [video_regex_here].
  - split; [discriminate | intros (ext & known & [=] & _)].
  - rewrite andb_true_iff, existsb_exists. split.
    + intros [Hc (known & Hin & Hm)].
      destruct (Ascii.eqb_spec c "."%char) as [->|]; [|discriminate].
      exists rest, known. repeat split; [assumption|].
      apply match_literal_whole.
      destruct (match_literal known rest) as [[|]|]; [reflexivity | discriminate..].
    + intros (ext & known & [= -> ->] & Hin & Hf). split; [reflexivity|].
      exists known. split; [assumption|].
      apply match_literal_whole in Hf. now rewrite Hf.
Qed.

Lemma video_regex_test_spec (name : string) :
  video_regex_test name = true <-> ends_with_video_extension name.
Proof.
  unfold ends_with_video_extension.
  induction name as [|c name IH].
  - simpl. split; [discriminate|].
    intros (stem & ext & known & E & _). destruct stem; discriminate.
  - cbn [video_regex_test]. rewrite orb_true_iff, video_regex_here_spec, IH. split.
    + intros [(ext & known & E & H)|(stem & ext & known & E & H)].
      * exists EmptyString, ext, known. now split.
      * exists (String c stem), ext, known. split; [simpl; now rewrite E | assumption].
    + intros (stem & ext & known & E & H). destruct stem as [|c' stem].
      * left. exists ext, known. now split.
      * right. injection E as _ E. exists stem, ext, known. now split.
Qed.

Lemma format_check (file : File) :
  (negb (includes SUPPORTED_FORMATS (file_type file))
   && negb (video_regex_test (file_name file)))%bool = false <->
  declared_type_supported file \/ ends_with_video_extension (file_name file).
Proof.
  unfold declared_type_supported.
  rewrite <- includes_In, <- video_regex_test_spec.
  destruct (includes _ _), (video_regex_test _); simpl; intuition discriminate.
Qed.

Lemma distinct_rejections : UnsupportedFormatError <> FileTooLargeError.
Proof. discriminate. Qed.

(** ** Names of the virtual input file *)

Lemma split_nonempty (sep : ascii) (s : string) : split sep s <> [].
Proof.
  destruct s as [|c s]; simpl; [discriminate|].
  destruct (Ascii.eqb c sep); [discriminate|].
  destruct (split sep s); discriminate.
Qed.

Lemma split_dotless (s : string) : dotless s -> split "." s = [s].
Proof.
  unfold dotless. induction s as [|c s IH]; simpl; intros H; [reflexivity|].
  destruct (Ascii.eqb_spec c "."%char) as [->|_].
  - exfalso. apply (H "."%char); auto.
  - rewrite IH; auto.
Qed.

Lemma pop_last {A : Type} (l : list A) (d : A) :
  l <> [] -> pop l = Some (last l d).
Proof.
  induction l as [|x [|y l] IH]; simpl; intros H; try congruence.
  apply IH. discriminate.
Qed.

Lemma last_skip {A : Type} (x : A) (l : list A) (d : A) :
  l <> [] -> last (x :: l) d = last l d.
Proof. destruct l; [congruence | reflexivity]. Qed.

Lemma split_after_dot (p q : string) :
  exists seg seg' segs, split "." (p ++ "." ++ q)%string = seg :: seg' :: segs.
Proof.
  induction p as [|c p (seg & seg' & segs & IH)]; simpl.
  - destruct (split "." q) as [|s l] eqn:E; [now apply split_nonempty in E|].
    now exists EmptyString, s, l.
  - simpl in IH. rewrite IH. destruct (Ascii.eqb c "."); eauto.
Qed.

Lemma last_segment_after_dot (p q : string) :
  last_segment (p ++ "." ++ q) = last_segment q.
Proof.
  unfold last_segment. induction p as [|c p IH].
  - simpl. apply last_skip, split_nonempty.
  - cbn [String.append split]. destruct (Ascii.eqb c ".").
    + rewrite last_skip; [exact IH | apply split_nonempty].
    + rewrite <- IH. destruct (split_after_dot p q) as (seg & seg' & segs & E).
      simpl in E |- *. rewrite E. reflexivity.
Qed.

Lemma last_segment_dotless (name : string) :
  dotless name -> last_segment name = name.
Proof. intros H. unfold last_segment. now rewrite split_dotless. Qed.

Lemma last_dot (s : string) :
  dotless s \/ exists p q, s = (p ++ "." ++ q)%string /\ dotless q.
Proof.
  induction s as [|c s [D|(p & q & -> & D)]].
  - left. intros c [].
  - destruct (Ascii.eqb_spec c "."%char) as [->|N].
    + right. exists EmptyString, s. now split.
    + left. intros c' [<-|H]; [assumption | now apply D].
  - right. exists (String c p), q. now split.
Qed.

Lemma last_segment_empty (name : string) :
  last_segment name = EmptyString <->
  name = EmptyString \/ exists stem, name = (stem ++ ".")%string.
Proof.
  split.
  - intros H. destruct (last_dot name) as [D|(p & q & -> & D)].
    + left. now rewrite <- (last_segment_dotless name D).
    + right. exists p. rewrite last_segment_after_dot, last_segment_dotless in H by assumption.
      now subst q.
  - intros [->|(stem & ->)]; [reflexivity|].
    exact (last_segment_after_dot stem EmptyString).
Qed.

Lemma inputExt_last_segment (file : File) :
  inputExt file =
  if String.eqb (last_segment (file_name file)) EmptyString then "mp4"
  else last_segment (file_name file).
Proof.
  unfold inputExt, last_segment.
  rewrite (pop_last _ EmptyString) by apply split_nonempty.
  now destruct (last _ _).
Qed.

(** ** Rules for stepping through a program *)

Lemma post_elim {A : Type} (m : M A) (o : oracle) (w : world) Q :
  post m o w Q -> forall r w', m o w = (r, w') -> Q r w'.
Proof. unfold post. intros H r w' E. now rewrite E in H. Qed.

Lemma post_consequence {A : Type} (m : M A) (o : oracle) (w : world)
    (Q Q' : completion A -> world -> Prop) :
  post m o w Q -> (forall r w', Q r w' -> Q' r w') -> post m o w Q'.
Proof. unfold post. auto. Qed.

Section Rules.
Context {A : Type} (o : oracle) (w : world) (Q : completion A -> world -> Prop).

Lemma post_ret (a : A) : Q (Ok a) w -> post (ret a) o w Q.
Proof. exact (fun H => H). Qed.

Lemma post_throw (e : exn) : Q (Threw e) w -> post (throw e) o w Q.
Proof. exact (fun H => H). Qed.

Lemma post_lift (r : completion A) : Q r w -> post (lift r) o w Q.
Proof. exact (fun H => H). Qed.

Lemma post_bind {B : Type} (m : M B) (f : B -> M A) :
  post m o w (fun r w1 => match r with
                          | Ok b => post (f b) o w1 Q
                          | Threw e => Q (Threw e) w1
                          end) ->
  post (bind m f) o w Q.
Proof.
  unfold post, bind. destruct (m o w) as [[b|e] w1]; exact (fun H => H).
Qed.

Lemma post_try_catch_finally
    (body : M A) (handler : exn -> M A) (final : M unit) :
  post body o w (fun r1 w1 =>
    match r1 with
    | Ok a =>
        post final o w1 (fun r3 w3 =>
          match r3 with
          | Ok _ => Q (Ok a) w3
          | Threw e => Q (Threw e) w3
          end)
    | Threw e =>
        post (handler e) o w1 (fun r2 w2 =>
          post final o w2 (fun r3 w3 =>
            match r3 with
            | Ok _ => Q r2 w3
            | Threw e' => Q (Threw e') w3
            end))
    end) ->
  post (try_catch_finally body handler final) o w Q.
Proof.
  unfold post, try_catch_finally.
  destruct (body o w) as [[a|e] w1]; cbn [fst snd].
  - destruct (final o w1) as [[[]|e3] w3]; exact (fun H => H).
  - destruct (handler e o w1) as [r2 w2]; cbn [fst snd].
    destruct (final o w2) as [[[]|e3] w3]; exact (fun H => H).
Qed.

Lemma post_try_catch (body : M A) (handler : exn -> M A) :
  post body o w (fun r1 w1 =>
    match r1 with
    | Ok a => Q (Ok a) w1
    | Threw e => post (handler e) o w1 Q
    end) ->
  post (try_catch body handler) o w Q.
Proof.
  unfold post, try_catch. destruct (body o w) as [[a|e] w1]; exact (fun H => H).
Qed.
End Rules.

Section Primitives.
Context (o : oracle) (w : world).

Lemma post_read {A : Type} (field : Store -> A) Q :
  Q (Ok (field (fst w))) w -> post (read field) o w Q.
Proof. exact (fun H => H). Qed.

Lemma post_assign (x : write) Q :
  Q (Ok tt) (apply_write x (fst w), snd w ++ [EvWrite x]) ->
  post (assign x) o w Q.
Proof. destruct w; exact (fun H => H). Qed.

Lemma post_emit (ev : event) Q :
  Q (Ok tt) (fst w, snd w ++ [ev]) -> post (emit ev) o w Q.
Proof. destruct w; exact (fun H => H). Qed.

Lemma post_listen (i : instance) Q :
  Q (Ok tt) (add_listener i (fst w), snd w) -> post (listen i) o w Q.
Proof. destruct w; exact (fun H => H). Qed.

Lemma post_invoke (c : call) Q :
  (forall r : reply c, r = o (snd w) c ->
     Q (settle r) (fst w, snd w ++ [EvCall c r])) ->
  post (invoke c) o w Q.
Proof. destruct w; intros H; now apply H. Qed.

Lemma post_await (c : call) Q :
  (forall r : reply c, r = o (snd w) c ->
     Q (settle r) (deliver (notes r) (fst w, snd w ++ [EvCall c r]))) ->
  post (await c) o w Q.
Proof. destruct w; intros H; now apply H. Qed.
End Primitives.

Lemma snoc_two {A : Type} (a b c l : list A) (x y : A) :
  l = a ++ b ++ c -> (l ++ [x]) ++ [y] = a ++ b ++ c ++ [x; y].
Proof. intros ->. now rewrite <- !app_assoc. Qed.

Lemma snoc_one {A : Type} (a b c l : list A) (x : A) :
  l = a ++ b ++ c -> l ++ [x] = a ++ b ++ c ++ [x].
Proof. intros ->. now rewrite <- !app_assoc. Qed.

Lemma reassoc {A : Type} (l x acc r : list A) :
  l ++ (x ++ acc) = r -> (l ++ x) ++ acc = r.
Proof. intros <-. symmetry. apply app_assoc. Qed.

(** Normal form of the store and the log after a step. *)
Ltac tidy :=
  cbn [fst snd apply_write deliver
       set_ffmpeg set_isLoading set_isConverting set_progress set_error
       set_isLoaded set_selectedFile set_isDragOver set_result set_toast
       set_selectedQuality add_listener
       ffmpeg isLoading isConverting progress error isLoaded selectedFile
       isDragOver result toast selectedQuality listeners
       engine_ready engine_missing negb].

(** A reply of the outside world: its two cases, and what to do with the
    equation that ties it to the oracle. *)
Ltac answer keep :=
  let r := fresh "r" in
  let Hr := fresh "Hr" in
  let ns := fresh "ns" in
  let e := fresh "e" in
  let v := fresh "v" in
  intros r Hr; destruct r as [ns [e|v]]; cbn [snd] in Hr; keep Hr;
  cbn [settle outcome notes].

Ltac step keep :=
  lazymatch goal with
  | |- post (bind _ _) _ _ _ => apply post_bind
  | |- post (ret _) _ _ _ => apply post_ret
  | |- post (throw _) _ _ _ => apply post_throw
  | |- post (lift _) _ _ _ => apply post_lift
  | |- post (read _) _ _ _ => apply post_read
  | |- post (assign _) _ _ _ => apply post_assign
  | |- post (emit _) _ _ _ => apply post_emit
  | |- post (listen _) _ _ _ => apply post_listen
  | |- post (invoke _) _ _ _ => apply post_invoke; answer keep
  | |- post (await _) _ _ _ => apply post_await; answer keep
  | |- post (try_catch_finally _ _ _) _ _ _ => apply post_try_catch_finally
  | |- post (try_catch _ _) _ _ _ => apply post_try_catch
  | |- post (cleanup _) _ _ _ => unfold cleanup
  | |- post (showToast _ _) _ _ _ => unfold showToast
  | |- post loadFFmpeg _ _ _ => unfold loadFFmpeg
  | |- post (if _ then _ else _) _ _ _ => progress tidy
  | |- post (match _ with Some _ => _ | None => _ end) _ _ _ => progress tidy
  end; tidy.

Ltac forget H := clear H.

(** Keep what the browser said when asked for an object URL. *)
Ltac keep_url H :=
  lazymatch type of H with
  | _ = _ _ (CreateObjectURL _) => idtac
  | _ => clear H
  end.
Ltac steps := repeat step forget.

(** Evaluation of an observation on a log built by appending. *)
Ltac observe :=
  unfold calls, failures, exec_commands, written_paths, revocations,
    loading_writes, loaded_engines, created_engines, engine_users in *;
  cbn [flat_map app outcome].

(** The log of a finished run is the log at the start and what was added. *)
Ltac regroup := repeat apply reassoc; reflexivity.

Ltac added := cbn [fst snd]; eexists; split; [regroup|].


Ltac observe_more :=
  unfold calls, failures, exec_commands, written_paths, revocations,
    loading_writes, loaded_engines, created_engines, engine_users,
    deletions, failed_calls, object_urls, fetched, read_back, error_writes,
    toasts, timers, asset_urls, load_calls, transcode_calls in *;
  cbn [flat_map app outcome length blob url size blob_type blob_data].

(** Closing a goal made of conjunctions, alternatives and facts that hold
    by computation. *)
Ltac close :=
  lazymatch goal with
  | |- _ /\ _ => split; close
  | |- exists _, _ => eexists; close
  | |- _ \/ _ => first [solve [left; close] | solve [right; close]]
  | |- _ <> _ => first [discriminate | assumption]
  | |- _ -> _ =>
      let H := fresh in
      intro H; first [discriminate H | now elim H | close]
  | |- (_ <= _)%nat => cbn [length]; lia
  | |- _ => first [reflexivity | assumption]
  end.

(** ** What a conversion does *)

Lemma convertToGif_resets (o : oracle) (file : File) (options : ConversionOptions)
    (st : Store) (tr : list event) :
  post (convertToGif file options) o (st, tr) (fun _ w' =>
    progress (fst w') = 0 /\ isConverting (fst w') = false /\
    exists work,
      snd w' = tr ++ [EvWrite (W_error None); EvWrite (W_progress 0);
                      EvWrite (W_isConverting true)]
                  ++ work
                  ++ [EvWrite (W_isConverting false); EvWrite (W_progress 0)]).
Proof.
  unfold convertToGif. destruct st as [ff ? ? ? ? ld ? ? ? ? ? ?].
  steps.
  destruct (validateFile file) as [[]|e0];
    [destruct ff as [i|]; [destruct ld|] |]; steps;
    (split; [reflexivity|]; split; [reflexivity|]);
    cbn [snd]; eexists; apply snoc_two; regroup.
Qed.

Lemma convertToGif_run (o : oracle) (file : File) (options : ConversionOptions)
    (st : Store) (tr : list event) :
  post (convertToGif file options) o (st, tr) (fun r w' =>
    exists delta,
      snd w' = tr ++ delta /\
      match r with
      | Ok res =>
          validateFile file = Ok tt /\ failures delta = []
          /\ error (fst w') = None
          /\ exec_commands delta = [exec_args file options]
          /\ written_paths delta = [inputName file]
      | Threw e =>
          error (fst w') = Some (error_message e)
          /\ (validateFile file = Threw e /\ calls delta = []
              \/ validateFile file = Ok tt /\ failures delta = [e])
          /\ (exec_commands delta = []
              \/ exec_commands delta = [exec_args file options])
          /\ (written_paths delta = []
              \/ written_paths delta = [inputName file])
      end).
Proof.
  unfold convertToGif. destruct st as [ff ? ? ? ? ld ? ? ? ? ? ?].
  steps.
  destruct (validateFile file) as [[]|e0] eqn:V;
    [destruct ff as [i|]; [destruct ld|] |]; steps; added; observe;
    repeat split;
    try reflexivity;
    try (right; split; reflexivity);
    try (left; split; reflexivity);
    first [left; reflexivity | right; reflexivity].
Qed.

(** ** The engine is loaded once *)

Lemma loadFFmpeg_ready (o : oracle) (st : Store) (tr : list event) :
  engine_ready st = true -> loadFFmpeg o (st, tr) = (Ok tt, (st, tr)).
Proof.
  intros H. unfold loadFFmpeg, bind, read. cbn [fst]. now rewrite H.
Qed.

Lemma loadFFmpeg_loading (o : oracle) (st : Store) (tr : list event) :
  engine_ready st = false ->
  post loadFFmpeg o (st, tr) (fun r w' =>
    isLoading (fst w') = false /\
    exists work,
      snd w' = tr ++ [EvWrite (W_isLoading true); EvWrite (W_error None)]
                  ++ work ++ [EvWrite (W_isLoading false)]
      /\ loading_writes work = []
      /\ calls work <> []
      /\ match r with
         | Ok _ =>
             exists i, ffmpeg (fst w') = Some i /\ isLoaded (fst w') = true
                       /\ created_engines work = [i]
                       /\ loaded_engines work = [i]
                       /\ failures work = []
         | Threw e =>
             ffmpeg (fst w') = ffmpeg st /\ isLoaded (fst w') = isLoaded st
             /\ loaded_engines work = []
             /\ failures work = [e]
             /\ error (fst w') = Some LOAD_ERROR_MESSAGE
         end).
Proof.
  destruct st as [ff ? ? ? ? ld ? ? ? ? ? ?]. cbn [engine_ready ffmpeg isLoaded].
  intros H. unfold loadFFmpeg.
  destruct ff as [i|]; [destruct ld; [discriminate|] |]; steps;
    (split; [reflexivity|]);
    cbn [snd]; eexists; (split; [apply snoc_one; regroup|]); observe;
    repeat split; try discriminate; eauto 7.
Qed.

Ltac engine_leaf :=
  cbn [fst snd]; eexists; (split; [regroup|]);
  unfold engine_inv in *; tidy;
  unfold loaded_engines, engine_users in *;
  rewrite ?flat_map_app; cbn [flat_map app outcome];
  repeat match goal with
         | H : _ /\ _ |- _ => destruct H
         | H : flat_map _ _ = _ |- _ => rewrite H
         end;
  cbn [app];
  repeat split; try reflexivity;
  try (intros u Hu; rewrite ?in_app_iff in Hu; cbn [In] in Hu; intuition auto; fail).

Lemma loadFFmpeg_engine (o : oracle) (st : Store) (tr d : list event) :
  engine_inv st d ->
  post loadFFmpeg o (st, tr ++ d) (fun _ w' =>
    exists d', snd w' = tr ++ d' /\ engine_inv (fst w') d').
Proof.
  destruct st as [ff ? ? ? ? ld ? ? ? ? ? ?]. unfold engine_inv at 1.
  cbn [ffmpeg isLoaded]. intros H. unfold loadFFmpeg.
  destruct ff as [i|]; [destruct H as (-> & H)|];
    steps; engine_leaf.
Qed.

Lemma convertToGif_engine (o : oracle) (file : File) (options : ConversionOptions)
    (st : Store) (tr d : list event) :
  engine_inv st d ->
  post (convertToGif file options) o (st, tr ++ d) (fun _ w' =>
    exists d', snd w' = tr ++ d' /\ engine_inv (fst w') d').
Proof.
  destruct st as [ff ? ? ? ? ld ? ? ? ? ? ?]. unfold engine_inv at 1.
  cbn [ffmpeg isLoaded]. intros H. unfold convertToGif.
  steps.
  destruct ff as [i|]; [destruct H as (-> & H)|];
    (destruct (validateFile file) as [[]|e0]; steps; engine_leaf).
Qed.

Lemma serve_one_engine (o : oracle) (q : request) (st : Store) (tr d : list event) :
  engine_inv st d ->
  post (serve_one q) o (st, tr ++ d) (fun r w' =>
    r = Ok tt /\ exists d', snd w' = tr ++ d' /\ engine_inv (fst w') d').
Proof.
  intros H. unfold serve_one. apply post_try_catch. destruct q as [|file options].
  - eapply post_consequence; [now apply loadFFmpeg_engine|].
    intros [[]|e] w' HQ; [|apply post_ret]; now split.
  - apply post_bind.
    eapply post_consequence; [now apply convertToGif_engine|].
    intros [res|e] w' HQ; apply post_ret; now split.
Qed.

Lemma serve_engine (o : oracle) (qs : list request) :
  forall (st : Store) (tr d : list event),
    engine_inv st d ->
    post (serve qs) o (st, tr ++ d) (fun _ w' =>
      exists d', snd w' = tr ++ d' /\ engine_inv (fst w') d').
Proof.
  induction qs as [|q qs IH]; intros st tr d H; cbn [serve].
  - apply post_ret. now exists d.
  - apply post_bind.
    eapply post_consequence; [now apply serve_one_engine|].
    intros r [st1 tr1] (-> & d1 & E & H1). cbn [fst snd] in E, H1. subst tr1.
    now apply IH.
Qed.

(** ** Object URLs are released once *)

Lemma released_app (u : string) (d d' : list event) :
  released u (d ++ d') = (released u d + released u d')%nat.
Proof. unfold released, revocations. now rewrite flat_map_app, count_occ_app. Qed.

Lemma released_other (u a : string) :
  a <> u -> released u [EvRevoke a] = 0%nat.
Proof.
  intros N. unfold released. cbn. now destruct (string_dec a u).
Qed.

Lemma released_same (u : string) : released u [EvRevoke u] = 1%nat.
Proof.
  unfold released. cbn. now destruct (string_dec u u).
Qed.

Lemma released_write (u : string) (x : write) : released u [EvWrite x] = 0%nat.
Proof. reflexivity. Qed.

Lemma released_timeout (u : string) (ms : Z) : released u [EvTimeout ms] = 0%nat.
Proof. reflexivity. Qed.

Lemma released_none (u : string) (d : list event) :
  revocations d = [] -> released u d = 0%nat.
Proof. unfold released. now intros ->. Qed.

Lemma selectFile_releases (o : oracle) (file : File) (st : Store)
    (tr : list event) (res : ConversionResult) :
  result st = Some res ->
  selectFile file o (st, tr) =
  (Ok tt, (set_selectedFile (Some file) (set_result None st),
           tr ++ [EvRevoke (url res); EvWrite (W_result None);
                  EvWrite (W_selectedFile (Some file))])).
Proof.
  intros H. unfold selectFile, bind, read, cleanup, emit, assign. cbn [fst snd].
  rewrite H. cbn [apply_write]. now rewrite <- !app_assoc.
Qed.

Lemma clearFile_releases (o : oracle) (st : Store)
    (tr : list event) (res : ConversionResult) :
  result st = Some res ->
  clearFile o (st, tr) =
  (Ok tt, (set_result None (set_selectedFile None st),
           tr ++ [EvWrite (W_selectedFile None); EvRevoke (url res);
                  EvWrite (W_result None)])).
Proof.
  intros H. unfold clearFile, bind, read, cleanup, emit, assign.
  cbn [fst snd apply_write set_selectedFile result].
  rewrite H. now rewrite <- !app_assoc.
Qed.

(** ** No URL is revoked twice *)

Lemma revocations_app (a b : list event) :
  revocations (a ++ b) = revocations a ++ revocations b.
Proof. apply flat_map_app. Qed.

Lemma convertToGif_fresh (o : oracle) (file : File)
    (options : ConversionOptions) (st : Store) (tr : list event) :
  fresh_urls o ->
  post (convertToGif file options) o (st, tr) (fun r w' =>
    exists d,
      snd w' = tr ++ d /\ revocations d = []
      /\ result (fst w') = result st
      /\ selectedFile (fst w') = selectedFile st
      /\ match r with
         | Ok res => ~ In (url res) (revocations tr)
         | Threw _ => True
         end).
Proof.
  intros Hf. unfold convertToGif. destruct st as [ff ? ? ? ? ld ? ? ? ? ? ?].
  repeat step keep_url.
  destruct ff as [i|]; [destruct ld|];
    (destruct (validateFile file) as [[]|e0]; repeat step keep_url; added;
     observe; repeat split;
     cbn [url];
     match goal with
     | H : _ = o ?h (CreateObjectURL ?b) |- ~ In ?v _ =>
         let N := fresh "N" in
         assert (N : ~ In v (revocations h))
           by (apply (Hf h b); rewrite <- H; reflexivity);
         cbn [snd deliver] in N;
         rewrite !revocations_app in N; unfold revocations in N;
         cbn [flat_map] in N; rewrite !app_nil_r in N; exact N
     end).
Qed.

(** A step that revokes nothing and keeps the result and the file. *)
Lemma tidy_quiet (st st' : Store) (tr l d : list event) :
  l = tr ++ d -> revocations d = [] ->
  result st' = result st ->
  (result st <> None -> selectedFile st' = selectedFile st) ->
  tidy_urls st tr -> tidy_urls st' l.
Proof.
  unfold tidy_urls. intros -> R Er Es [N H].
  rewrite revocations_app, R, app_nil_r, Er. split; [assumption|].
  destruct (result st) as [res|]; [|exact I].
  rewrite Es by discriminate. assumption.
Qed.

(** A step that revokes the URL of the result and empties the slot. *)
Lemma tidy_release (st st' : Store) (tr l d : list event) (res : ConversionResult) :
  l = tr ++ d -> revocations d = [url res] ->
  result st = Some res -> result st' = None ->
  tidy_urls st tr -> tidy_urls st' l.
Proof.
  unfold tidy_urls. intros -> R Er En [N H].
  rewrite revocations_app, R, En, Er in *. split; [|exact I].
  destruct H as [H _]. apply NoDup_app; [assumption | repeat constructor; intros [] |].
  intros a Ha [<-|[]]. now apply H.
Qed.

(** A step that revokes nothing and puts a new result on display. *)
Lemma tidy_install (st st' : Store) (tr l d : list event) (res : ConversionResult) :
  l = tr ++ d -> revocations d = [] ->
  result st' = Some res -> ~ In (url res) (revocations tr) ->
  selectedFile st' <> None ->
  tidy_urls st tr -> tidy_urls st' l.
Proof.
  unfold tidy_urls. intros -> R Er Hn Hs [N _].
  rewrite revocations_app, R, app_nil_r, Er. now repeat split.
Qed.

Ltac quiet H :=
  cbn [fst snd]; split; [reflexivity|];
  eapply tidy_quiet; [regroup | reflexivity | reflexivity | reflexivity | exact H].

Lemma selectFile_tidy (o : oracle) (file : File) (st : Store) (tr : list event) :
  tidy_urls st tr ->
  post (selectFile file) o (st, tr) (fun r w' =>
    r = Ok tt /\ tidy_urls (fst w') (snd w')).
Proof.
  intros H. unfold selectFile. steps.
  destruct (result st) as [res|] eqn:E; steps; cbn [fst snd];
    (split; [reflexivity|]).
  - eapply (tidy_release st); [regroup | reflexivity | exact E | reflexivity | exact H].
  - eapply (tidy_quiet st); [regroup | reflexivity | reflexivity | | exact H].
    intros N. now rewrite E in N.
Qed.

Lemma clearFile_tidy (o : oracle) (st : Store) (tr : list event) :
  tidy_urls st tr ->
  post clearFile o (st, tr) (fun r w' =>
    r = Ok tt /\ tidy_urls (fst w') (snd w')).
Proof.
  intros H. unfold clearFile. steps.
  destruct (result st) as [res|] eqn:E; steps; cbn [fst snd];
    (split; [reflexivity|]).
  - eapply (tidy_release st); [regroup | reflexivity | exact E | reflexivity | exact H].
  - eapply (tidy_quiet st); [regroup | reflexivity | reflexivity | | exact H].
    intros N. now rewrite E in N.
Qed.

Lemma showToast_tidy (o : oracle) (m : string) (t : toast_type)
    (st : Store) (tr : list event) :
  tidy_urls st tr ->
  post (showToast m t) o (st, tr) (fun r w' =>
    r = Ok tt /\ tidy_urls (fst w') (snd w')).
Proof. intros H. unfold showToast. steps. quiet H. Qed.

Lemma handleConvert_tidy (o : oracle) (st : Store) (tr : list event) :
  fresh_urls o ->
  tidy_urls st tr ->
  post handleConvert o (st, tr) (fun r w' =>
    r = Ok tt /\ tidy_urls (fst w') (snd w')).
Proof.
  intros Hf H. unfold handleConvert. steps.
  destruct (selectedFile st) as [file|] eqn:Es; steps.
  - eapply post_consequence; [now apply convertToGif_fresh|].
    intros [res|e] [st1 tr1] (d1 & E & R & Eres & Esel & Hres);
      cbn [fst snd] in E, Eres, Esel; subst tr1; steps;
      cbn [fst snd]; (split; [reflexivity|]).
    + eapply (tidy_install st _ tr _ _ res);
        [regroup | | reflexivity | exact Hres | | exact H].
      * rewrite !revocations_app, R. reflexivity.
      * tidy. rewrite Esel, Es. discriminate.
    + eapply (tidy_quiet st); [regroup | | | | exact H].
      * rewrite !revocations_app, R. reflexivity.
      * tidy. exact Eres.
      * intros _. tidy. exact Esel.
  - cbn [fst snd]. split; [reflexivity|]. assumption.
Qed.

Lemma react_tidy (o : oracle) (g : gesture) (st : Store) (tr : list event) :
  fresh_urls o ->
  tidy_urls st tr ->
  post (react g) o (st, tr) (fun r w' =>
    r = Ok tt /\ tidy_urls (fst w') (snd w')).
Proof.
  intros Hf H. destruct g as [| |[f|]|[f|]|q| | |]; cbn [react].
  - unfold handleDragOver. steps. quiet H.
  - unfold handleDragLeave. steps. quiet H.
  - unfold handleDrop. steps.
    assert (H1 : tidy_urls (set_isDragOver false st)
                   (tr ++ [EvWrite (W_isDragOver false)]))
      by (eapply (tidy_quiet st); [reflexivity | reflexivity | reflexivity | reflexivity | exact H]).
    destruct (isVideoFile f);
      [now apply selectFile_tidy | now apply showToast_tidy].
  - unfold handleDrop. steps. quiet H.
  - unfold handleFileInput. now apply selectFile_tidy.
  - unfold handleFileInput. steps. now split.
  - steps. quiet H.
  - now apply clearFile_tidy.
  - now apply handleConvert_tidy.
  - unfold downloadGif. steps.
    destruct (result st), (selectedFile st); steps; now split.
Qed.

Lemma session_tidy (o : oracle) (gs : list gesture) :
  fresh_urls o ->
  forall (st : Store) (tr : list event),
    tidy_urls st tr ->
    post (session gs) o (st, tr) (fun r w' =>
      r = Ok tt /\ tidy_urls (fst w') (snd w')).
Proof.
  intros Hf. induction gs as [|g gs IH]; intros st tr H; cbn [session].
  - apply post_ret. now split.
  - apply post_bind.
    eapply post_consequence; [now apply react_tidy|].
    intros r [st1 tr1] (-> & H1). now apply IH.
Qed.

Lemma length_append (a b : string) :
  String.length (a ++ b) = (String.length a + String.length b)%nat.
Proof. induction a as [|c a IH]; cbn; [reflexivity | now rewrite IH]. Qed.

Lemma join_bounds (l : list string) (u : string) :
  In u l -> (String.length u <= String.length (join l))%nat.
Proof.
  induction l as [|a l IH]; cbn [In join]; [intros []|].
  rewrite length_append. intros [<-|H]; [lia|]. apply IH in H. lia.
Qed.

Lemma sincere_fresh : fresh_urls sincere.
Proof.
  intros tr b u E. cbn in E. injection E as <-. intros H.
  apply join_bounds in H. cbn [String.length] in H. lia.
Qed.

Lemma initial_tidy : tidy_urls initial_store [].
Proof. split; [constructor | exact I]. Qed.

(** The log only grows. *)
Lemma selectFile_extends (o : oracle) (file : File) (st : Store) (tr : list event) :
  post (selectFile file) o (st, tr) (fun _ w' => exists d, snd w' = tr ++ d).
Proof.
  unfold selectFile. steps.
  destruct (result st) as [res|]; steps; cbn [snd]; eexists; regroup.
Qed.

Lemma clearFile_extends (o : oracle) (st : Store) (tr : list event) :
  post clearFile o (st, tr) (fun _ w' => exists d, snd w' = tr ++ d).
Proof.
  unfold clearFile. steps.
  destruct (result st) as [res|]; steps; cbn [snd]; eexists; regroup.
Qed.

Lemma handleConvert_extends (o : oracle) (st : Store) (tr : list event) :
  post handleConvert o (st, tr) (fun _ w' => exists d, snd w' = tr ++ d).
Proof.
  unfold handleConvert. steps.
  destruct (selectedFile st) as [file|]; steps.
  - eapply post_consequence; [apply convertToGif_run|].
    intros [res|e] [st1 tr1] (d1 & E & _); cbn [snd] in E; subst tr1; steps;
      cbn [snd]; eexists; regroup.
  - cbn [snd]. exists []. now rewrite app_nil_r.
Qed.

Lemma post_both {A : Type} (m : M A) (o : oracle) (w : world)
    (Q Q' : completion A -> world -> Prop) :
  post m o w Q -> post m o w Q' -> post m o w (fun r w' => Q r w' /\ Q' r w').
Proof. unfold post. now split. Qed.

Lemma perform_tidy (o : oracle) (a : action) (st : Store) (tr : list event) :
  fresh_urls o ->
  tidy_urls st tr ->
  post (perform a) o (st, tr) (fun r w' =>
    (r = Ok tt /\ tidy_urls (fst w') (snd w'))
    /\ exists d, snd w' = tr ++ d).
Proof.
  intros Hf H. apply post_both; destruct a as [file| |]; cbn [perform].
  - now apply selectFile_tidy.
  - now apply clearFile_tidy.
  - now apply handleConvert_tidy.
  - apply selectFile_extends.
  - apply clearFile_extends.
  - apply handleConvert_extends.
Qed.

Lemma interact_tidy (o : oracle) (acts : list action) :
  fresh_urls o ->
  forall (st : Store) (tr : list event),
    tidy_urls st tr ->
    post (interact acts) o (st, tr) (fun r w' =>
      (r = Ok tt /\ tidy_urls (fst w') (snd w'))
      /\ exists d, snd w' = tr ++ d).
Proof.
  intros Hf. induction acts as [|a acts IH]; intros st tr H; cbn [interact].
  - apply post_ret. split; [now split | exists []; now rewrite app_nil_r].
  - apply post_bind.
    eapply post_consequence; [now apply perform_tidy|].
    intros r [st1 tr1] ((-> & H1) & d1 & E1). cbn [fst snd] in H1, E1. subst tr1.
    eapply post_consequence; [now apply IH|].
    intros r [st2 tr2] ((-> & H2) & d2 & E2). cbn [fst snd] in H2, E2 |- *.
    subst tr2. split; [now split|].
    exists (d1 ++ d2). now rewrite app_assoc.
Qed.

Lemma lifetime_tidy (o : oracle) (acts : list action) (st : Store)
    (tr : list event) :
  fresh_urls o ->
  tidy_urls st tr ->
  post (lifetime acts) o (st, tr) (fun _ w' =>
    NoDup (revocations (snd w')) /\ exists d, snd w' = tr ++ d).
Proof.
  intros Hf H. unfold lifetime. apply post_bind.
  eapply post_consequence; [now apply interact_tidy|].
  intros r [st1 tr1] ((-> & N & L) & d1 & E1). cbn [fst snd] in N, L, E1.
  subst tr1. unfold onUnmounted. steps.
  destruct (result st1) as [res|]; steps; cbn [snd].
  - split; [|eexists; regroup].
    rewrite revocations_app. destruct L as [L _].
    apply NoDup_app; [assumption | repeat constructor; intros [] |].
    intros a Ha [<-|[]]. now apply L.
  - split; [assumption | now exists d1].
Qed.

Lemma released_once (u : string) (tr d : list event) :
  NoDup (revocations (tr ++ d)) ->
  In u (revocations d) ->
  released u d = 1%nat /\ released u (tr ++ d) = 1%nat.
Proof.
  intros N I. unfold released. split.
  - rewrite revocations_app in N. apply NoDup_app_remove_l in N.
    now apply NoDup_count_occ'.
  - apply NoDup_count_occ'; [assumption|].
    rewrite revocations_app. apply in_or_app. now right.
Qed.

Lemma lifetime_releases_once (o : oracle) (st : Store) (tr : list event)
    (res : ConversionResult) (first : action) (rest : list action) :
  fresh_urls o ->
  tidy_urls st tr ->
  result st = Some res ->
  (exists file, first = SelectFile file) \/ first = ClearFile ->
  post (lifetime (first :: rest)) o (st, tr) (fun _ w' =>
    exists d, snd w' = tr ++ d
              /\ released (url res) d = 1%nat
              /\ released (url res) (tr ++ d) = 1%nat).
Proof.
  intros Hf H Hr Hfirst.
  assert (F : exists st1 d1,
             perform first o (st, tr) = (Ok tt, (st1, tr ++ d1))
             /\ In (url res) (revocations d1)).
  { destruct Hfirst as [[file ->] | ->]; cbn [perform];
      [rewrite (selectFile_releases o file st tr res Hr)
      |rewrite (clearFile_releases o st tr res Hr)];
      do 2 eexists; (split; [reflexivity|]); cbn; auto. }
  destruct F as (st1 & d1 & E1 & I1).
  pose proof (perform_tidy o first st tr Hf H) as P. unfold post in P.
  rewrite E1 in P. cbn [fst snd] in P. destruct P as ((_ & H1) & _).
  pose proof (lifetime_tidy o rest st1 (tr ++ d1) Hf H1) as L.
  unfold post, lifetime in *. cbn [interact].
  unfold bind at 1 2. rewrite E1.
  change (let (c, w1) := interact rest o (st1, tr ++ d1) in
          match c with
          | Ok a => onUnmounted o w1
          | Threw e => (Threw e, w1)
          end) with ((interact rest ;; onUnmounted) o (st1, tr ++ d1)).
  destruct L as (N & d2 & E2). rewrite E2 in *.
  exists (d1 ++ d2). rewrite app_assoc. split; [reflexivity|].
  rewrite <- app_assoc in N |- *. apply released_once; [assumption|].
  rewrite revocations_app. apply in_or_app. now left.
Qed.

(** ** The anatomy of a load *)

Lemma loadFFmpeg_anatomy (o : oracle) (st : Store) (tr : list event) :
  engine_ready st = false ->
  post loadFFmpeg o (st, tr) (fun r w' =>
    isLoading (fst w') = false /\
    exists work,
      snd w' = tr ++ [EvWrite (W_isLoading true); EvWrite (W_error None)]
                  ++ work ++ [EvWrite (W_isLoading false)]
      /\ loading_writes work = []
      /\ calls work <> []
      /\ match r with
         | Ok _ =>
             failures work = []
             /\ exists i coreURL wasmURL,
                  calls work = load_calls i coreURL wasmURL
                  /\ created_engines work = [i]
                  /\ asset_urls work = [coreURL; wasmURL]
                  /\ loaded_engines work = [i]
                  /\ ffmpeg (fst w') = Some i
                  /\ isLoaded (fst w') = true
         | Threw e =>
             failures work = [e]
             /\ failed_calls work = [last (calls work) ImportFFmpeg]
             /\ (exists i coreURL wasmURL,
                   (exists rest, load_calls i coreURL wasmURL = calls work ++ rest)
                   /\ (exists more, [i] = created_engines work ++ more)
                   /\ (exists more, [coreURL; wasmURL] = asset_urls work ++ more))
             /\ ffmpeg (fst w') = ffmpeg st
             /\ isLoaded (fst w') = isLoaded st
             /\ loaded_engines work = []
             /\ error (fst w') = Some LOAD_ERROR_MESSAGE
         end).
Proof.
  destruct st as [ff ? ? ? ? ld ? ? ? ? ? ?]. cbn [engine_ready ffmpeg isLoaded].
  intros H. unfold loadFFmpeg.
  destruct ff as [i|]; [destruct ld; [discriminate|] |]; steps;
    (split; [reflexivity|]);
    cbn [snd]; eexists; (split; [apply snoc_one; regroup|]); tidy;
    observe_more; cbn [last]; close.
  Unshelve. all: first [exact 0%nat | exact EmptyString].
Qed.

(** * The properties of the specification *)

Lemma filter_expr_stages (fps width colors : Z) :
  filter_expr fps width colors =
  (resample_scale_split fps width ++ ";" ++ palette_stage colors)%string.
Proof.
  unfold filter_expr, resample_scale_split, palette_stage.
  rewrite !string_app_assoc. reflexivity.
Qed.

(** C1. With no frame-rate override every preset yields its own row of the
    table (width, palette colours, frames per second): low 320/64/10,
    medium 480/128/12, high 720/256/15, original 1280/256/12; and options
    without a quality are treated as high. *)
Theorem C1_preset_table (q : QualityPreset) (l : option Z) :
  (let d := derive (no_override (Some q) l) in
   (d_width d, d_colors d, d_fps d) =
   match q with
   | low => (320, 64, 10)
   | medium => (480, 128, 12)
   | high => (720, 256, 15)
   | original => (1280, 256, 12)
   end)
  /\ derive (no_override None l) = derive (no_override (Some high) l)
  /\ derive no_options = derive (no_override (Some high) None).
Proof. destruct q; repeat split. Qed.

(** C2. A successful conversion issues exactly one engine command.  Its
    filter expression is the stage that resamples to the derived rate,
    scales to the derived width with height -1 and splits, a semicolon, and
    the stage that builds a palette of at most the derived number of colours
    and applies it with Floyd-Steinberg dithering.  For the medium preset
    without override the expression reads fps=12, scale=480:-1 and
    max_colors=128. *)
Theorem C2_single_filter_command (o : oracle) (file : File)
    (options : ConversionOptions) (st : Store) (tr : list event)
    (res : ConversionResult) (w' : world) :
  convertToGif file options o (st, tr) = (Ok res, w') ->
  exists delta,
    snd w' = tr ++ delta
    /\ exec_commands delta =
       [["-i"; inputName file; "-vf";
         (resample_scale_split (d_fps (derive options)) (d_width (derive options))
          ++ ";" ++ palette_stage (d_colors (derive options)))%string;
         "-loop"; String_of_number (d_loop (derive options)); "output.gif"]]
    /\ (forall l, options = no_override (Some medium) l ->
        exec_commands delta =
        [["-i"; inputName file; "-vf";
          "fps=12,scale=480:-1:flags=lanczos,split[s0][s1];[s0]palettegen=max_colors=128[p];[s1][p]paletteuse=dither=floyd_steinberg";
          "-loop"; String_of_number (nullish l 0); "output.gif"]]).
Proof.
  intros E.
  destruct (post_elim _ _ _ _ (convertToGif_run o file options st tr) _ _ E)
    as (delta & El & _ & _ & _ & Ex & _).
  exists delta. split; [assumption|].
  rewrite Ex. unfold exec_args. rewrite filter_expr_stages.
  split; [reflexivity|]. intros l ->. reflexivity.
Qed.

(** C3 as amended. A file that passes the format check (its declared type
    is one of the four, or its name has one of the four extensions) and is
    larger than 100 MiB is refused as too large; a file that fails the format
    check is refused for its format whatever its size. *)
Theorem C3_too_large_after_format (file : File) :
  (declared_type_supported file \/ ends_with_video_extension (file_name file) ->
   file_size file > MAX_FILE_SIZE ->
   validateFile file = Threw FileTooLargeError)
  /\ (~ declared_type_supported file ->
      ~ ends_with_video_extension (file_name file) ->
      validateFile file = Threw UnsupportedFormatError
      /\ validateFile file <> Threw FileTooLargeError).
Proof.
  unfold validateFile. split.
  - intros F S. apply format_check in F. rewrite F.
    destruct (Z.gtb_spec (file_size file) MAX_FILE_SIZE); [reflexivity | lia].
  - intros T N.
    destruct (negb _ && negb _)%bool eqn:F.
    + split; [reflexivity | discriminate].
    + apply format_check in F. tauto.
Qed.


(** C4. A file whose declared type is none of the four and whose name has
    none of the four extensions (in any case) is refused as an unsupported
    format; a file with a listed type or a listed extension passes the
    format check, and its fate depends on its size alone. *)
Theorem C4_format_check (file : File) :
  (~ declared_type_supported file /\
   ~ ends_with_video_extension (file_name file) ->
   validateFile file = Threw UnsupportedFormatError)
  /\ (declared_type_supported file \/
      ends_with_video_extension (file_name file) ->
      validateFile file <> Threw UnsupportedFormatError
      /\ validateFile file =
         if file_size file >? MAX_FILE_SIZE then Threw FileTooLargeError
         else Ok tt).
Proof.
  unfold validateFile. split.
  - intros [T N].
    destruct (negb _ && negb _)%bool eqn:F; [reflexivity|].
    apply format_check in F. tauto.
  - intros F. apply format_check in F. rewrite F.
    destruct (file_size file >? MAX_FILE_SIZE); split; (reflexivity || discriminate).
Qed.

(** C5. A frame rate given in the options is the derived frame rate,
    whatever the preset and whatever the value, zero included (where it
    differs from the frame rate of every preset). *)
Theorem C5_override_wins (v : Z) (q : option QualityPreset) (l : option Z) :
  d_fps (derive (with_override v q l)) = v
  /\ d_fps (derive (with_override 0 q l)) = 0
  /\ d_fps (derive (no_override q l)) <> 0.
Proof. repeat split. destruct q as [[]|]; discriminate. Qed.

(** C6. Whatever the outside world answers, a call of convertToGif first
    assigns 0 to progress, before any work, and assigns 0 to it again as
    its last act: progress is 0 when the call has finished, with a result
    or with an exception. *)
Theorem C6_progress_reset (o : oracle) (file : File)
    (options : ConversionOptions) (st : Store) (tr : list event) :
  let w' := snd (convertToGif file options o (st, tr)) in
  progress (fst w') = 0
  /\ exists work,
       snd w' = tr ++ [EvWrite (W_error None); EvWrite (W_progress 0);
                       EvWrite (W_isConverting true)]
                   ++ work
                   ++ [EvWrite (W_isConverting false); EvWrite (W_progress 0)].
Proof.
  destruct (convertToGif_resets o file options st tr) as (P & _ & W).
  now split.
Qed.

(** C7. With a result on display, selecting a file revokes the URL of the
    result once, empties the result slot and only then stores the new file;
    clearing revokes it once and empties the slot.  Whatever the user does
    afterwards, and through the unmount hook, that URL is revoked exactly
    once, in what follows and in the whole log.  The component is in a state
    it can reach (no URL revoked twice so far, the result's not yet) and the
    browser never hands out a URL that was revoked. *)
Theorem C7_release_once (o : oracle) (st : Store) (tr : list event)
    (res : ConversionResult) :
  fresh_urls o ->
  tidy_urls st tr ->
  result st = Some res ->
  (forall file,
      selectFile file o (st, tr) =
      (Ok tt, (set_selectedFile (Some file) (set_result None st),
               tr ++ [EvRevoke (url res); EvWrite (W_result None);
                      EvWrite (W_selectedFile (Some file))])))
  /\ clearFile o (st, tr) =
     (Ok tt, (set_result None (set_selectedFile None st),
              tr ++ [EvWrite (W_selectedFile None); EvRevoke (url res);
                     EvWrite (W_result None)]))
  /\ (forall first rest,
        (exists file, first = SelectFile file) \/ first = ClearFile ->
        exists d,
          snd (snd (lifetime (first :: rest) o (st, tr))) = tr ++ d
          /\ released (url res) d = 1%nat
          /\ released (url res) (tr ++ d) = 1%nat).
Proof.
  intros Hf H Hr. split; [|split].
  - intros file. now apply selectFile_releases.
  - now apply clearFile_releases.
  - intros first rest Hfirst.
    exact (lifetime_releases_once o st tr res first rest Hf H Hr Hfirst).
Qed.

(** C8. A call of convertToGif fails exactly when a step fails: the
    validation, or one of the calls to the outside world.  It then throws
    what that step threw, leaves the message of that exception (or the
    fixed message for a thrown non-error) in the error state, and hands no
    result to its caller. *)
Theorem C8_failure_surfaces (o : oracle) (file : File)
    (options : ConversionOptions) (st : Store) (tr : list event)
    (r : completion ConversionResult) (w' : world) :
  convertToGif file options o (st, tr) = (r, w') ->
  exists delta,
    snd w' = tr ++ delta
    /\ match r with
       | Ok _ => validateFile file = Ok tt /\ failures delta = []
       | Threw e =>
           error (fst w') = Some (error_message e)
           /\ (validateFile file = Threw e /\ calls delta = []
               \/ validateFile file = Ok tt /\ failures delta = [e])
       end.
Proof.
  intros E.
  destruct (post_elim _ _ _ _ (convertToGif_run o file options st tr) _ _ E)
    as (delta & El & H).
  exists delta. split; [assumption|].
  destruct r as [res|e]; [now destruct H as (V & F & _) | now destruct H as (M & S & _)].
Qed.

(** C9. Called with the engine in place and the loaded flag set,
    loadFFmpeg returns at once: no call, no assignment.  Otherwise all it
    does lies between setting and clearing the loading flag.  It succeeds
    exactly when none of its calls throws, and has then made, in order, the
    two imports, the engine object, its two handlers, the two asset
    fetches and the load of that object with the fetched assets, and has
    stored that object with the loaded flag.  It fails with what the first
    failing call threw, having made the calls up to that one and no more,
    and stores no engine.  Over any sequence of requests to a fresh
    orchestrator at most one engine is ever loaded, and every conversion
    works on that one. *)
Theorem C9_engine_once (o : oracle) :
  (forall st tr i,
      ffmpeg st = Some i -> isLoaded st = true ->
      loadFFmpeg o (st, tr) = (Ok tt, (st, tr)))
  /\ (forall st tr r w',
        engine_ready st = false ->
        loadFFmpeg o (st, tr) = (r, w') ->
        isLoading (fst w') = false
        /\ exists work,
             snd w' = tr ++ [EvWrite (W_isLoading true); EvWrite (W_error None)]
                         ++ work ++ [EvWrite (W_isLoading false)]
             /\ loading_writes work = []
             /\ calls work <> []
             /\ match r with
                | Ok _ =>
                    failures work = []
                    /\ exists i coreURL wasmURL,
                         calls work = load_calls i coreURL wasmURL
                         /\ created_engines work = [i]
                         /\ asset_urls work = [coreURL; wasmURL]
                         /\ loaded_engines work = [i]
                         /\ ffmpeg (fst w') = Some i
                         /\ isLoaded (fst w') = true
                | Threw e =>
                    failures work = [e]
                    /\ failed_calls work = [last (calls work) ImportFFmpeg]
                    /\ (exists i coreURL wasmURL,
                          (exists rest, load_calls i coreURL wasmURL = calls work ++ rest)
                          /\ (exists more, [i] = created_engines work ++ more)
                          /\ (exists more, [coreURL; wasmURL] = asset_urls work ++ more))
                    /\ ffmpeg (fst w') = ffmpeg st
                    /\ isLoaded (fst w') = isLoaded st
                    /\ loaded_engines work = []
                    /\ error (fst w') = Some LOAD_ERROR_MESSAGE
                end)
  /\ (forall qs,
        let log := snd (snd (serve qs o (initial_store, []))) in
        (length (loaded_engines log) <= 1)%nat
        /\ forall u, In u (engine_users log) -> loaded_engines log = [u]).
Proof.
  split; [|split].
  - intros st tr i F L. apply loadFFmpeg_ready. unfold engine_ready. now rewrite F.
  - intros st tr r w' R E.
    exact (post_elim _ _ _ _ (loadFFmpeg_anatomy o st tr R) _ _ E).
  - intros qs log.
    assert (I0 : engine_inv initial_store []) by (now split).
    destruct (serve_engine o qs initial_store [] [] I0) as (d & E & I).
    cbn [app] in E. fold log in E. rewrite E. unfold engine_inv in I.
    destruct (ffmpeg _) as [i|].
    + destruct I as (_ & L & U). rewrite L. split; [cbn; lia|].
      intros u Hu. now rewrite (U u Hu).
    + destruct I as (L & U). rewrite L, U. split; [cbn; lia | intros u []].
Qed.

(** C10. The name written into the engine is [input.] followed by what
    comes after the last dot of the file name: for a name that is a stem, a
    dot and a non-empty piece without dots, that piece; for a name without
    any dot, the whole name; and mp4 only when nothing comes after the last
    dot, that is for a name ending in a dot, or when the name is empty.
    Every name is of one of these kinds.  A successful conversion writes
    that one path. *)
Theorem C10_input_name (file : File) :
  (forall stem ext,
      file_name file = (stem ++ "." ++ ext)%string ->
      dotless ext -> ext <> EmptyString ->
      inputName file = ("input." ++ ext)%string)
  /\ (dotless (file_name file) -> file_name file <> EmptyString ->
      inputName file = ("input." ++ file_name file)%string)
  /\ (file_name file = EmptyString
      \/ (exists stem, file_name file = (stem ++ ".")%string) ->
      inputName file = "input.mp4")
  /\ (dotless (file_name file)
      \/ exists stem ext,
           file_name file = (stem ++ "." ++ ext)%string /\ dotless ext)
  /\ (forall o options st tr res w',
        convertToGif file options o (st, tr) = (Ok res, w') ->
        exists delta, snd w' = tr ++ delta
                      /\ written_paths delta = [inputName file]).
Proof.
  unfold inputName. rewrite inputExt_last_segment.
  split; [|split; [|split; [|split]]].
  - intros stem ext E D N.
    rewrite E, last_segment_after_dot, last_segment_dotless by assumption.
    apply String.eqb_neq in N. now rewrite N.
  - intros D N. rewrite last_segment_dotless by assumption.
    apply String.eqb_neq in N. now rewrite N.
  - intros H. apply last_segment_empty in H. now rewrite H.
  - apply last_dot.
  - intros o options st tr res w' E.
    destruct (post_elim _ _ _ _ (convertToGif_run o file options st tr) _ _ E)
      as (delta & El & _ & _ & _ & _ & Wp).
    exists delta. split; [assumption|].
    rewrite Wp. unfold inputName. now rewrite inputExt_last_segment.
Qed.

(** ** The properties at sample inputs *)

Lemma C2_witness :
  exists delta,
    snd (snd medium_run) = [] ++ delta
    /\ exec_commands delta =
       [["-i"; inputName clip_mp4; "-vf";
         (resample_scale_split (d_fps (derive medium_options))
            (d_width (derive medium_options))
          ++ ";" ++ palette_stage (d_colors (derive medium_options)))%string;
         "-loop"; String_of_number (d_loop (derive medium_options));
         "output.gif"]]
    /\ (forall l, medium_options = no_override (Some medium) l ->
        exec_commands delta =
        [["-i"; inputName clip_mp4; "-vf";
          "fps=12,scale=480:-1:flags=lanczos,split[s0][s1];[s0]palettegen=max_colors=128[p];[s1][p]paletteuse=dither=floyd_steinberg";
          "-loop"; String_of_number (nullish l 0); "output.gif"]]).
Proof.
  apply (C2_single_filter_command obliging clip_mp4 medium_options
           initial_store [] sample_gif (snd medium_run)).
  vm_compute. reflexivity.
Defined.

(** The claim as the specification words it fails: a file too large and of
    no supported format is refused for its format. *)
Lemma C3_counterexample :
  file_size notes_txt > MAX_FILE_SIZE
  /\ validateFile notes_txt = Threw UnsupportedFormatError
  /\ validateFile notes_txt <> Threw FileTooLargeError.
Proof.
  split; [reflexivity|]. split; [reflexivity|].
  vm_compute. discriminate.
Qed.

Lemma C3_witness :
  validateFile huge_mov = Threw FileTooLargeError
  /\ validateFile notes_txt = Threw UnsupportedFormatError
  /\ validateFile notes_txt <> Threw FileTooLargeError.
Proof.
  split.
  - apply (proj1 (C3_too_large_after_format huge_mov)).
    + right. exists "HOLIDAY", "MOV", "mov". simpl. auto.
    + reflexivity.
  - apply (proj2 (C3_too_large_after_format notes_txt)).
    + unfold declared_type_supported. simpl. intuition discriminate.
    + intros H. apply video_regex_test_spec in H. vm_compute in H. discriminate.
Defined.

Lemma C4_witness :
  validateFile notes_txt = Threw UnsupportedFormatError
  /\ validateFile clip <> Threw UnsupportedFormatError
  /\ validateFile huge_mov <> Threw UnsupportedFormatError.
Proof.
  split; [|split].
  - apply (proj1 (C4_format_check notes_txt)). split.
    + unfold declared_type_supported. simpl. intuition discriminate.
    + intros H. apply video_regex_test_spec in H. vm_compute in H. discriminate.
  - apply (proj2 (C4_format_check clip)). left.
    unfold declared_type_supported. simpl. auto.
  - apply (proj2 (C4_format_check huge_mov)). right.
    exists "HOLIDAY", "MOV", "mov". simpl. auto.
Defined.

Lemma C7_witness :
  selectFile clip_mp4 sincere (fst second_result, snd second_result) =
  (Ok tt, (set_selectedFile (Some clip_mp4) (set_result None (fst second_result)),
           snd second_result
           ++ [EvRevoke "blob:blob:"; EvWrite (W_result None);
               EvWrite (W_selectedFile (Some clip_mp4))]))
  /\ exists d,
       snd (snd (lifetime (ClearFile :: busy_user) sincere
                   (fst second_result, snd second_result)))
       = snd second_result ++ d
       /\ released "blob:blob:" d = 1%nat
       /\ released "blob:blob:" (snd second_result ++ d) = 1%nat.
Proof.
  assert (T : tidy_urls (fst second_result) (snd second_result))
    by (apply (session_tidy sincere _ sincere_fresh initial_store []
                 initial_tidy)).
  assert (R : result (fst second_result)
              = Some {| blob := blob sample_gif; url := "blob:blob:"; size := 3 |})
    by (vm_compute; reflexivity).
  destruct (C7_release_once sincere (fst second_result) (snd second_result) _
              sincere_fresh T R) as (S & _ & L).
  split; [apply S | apply L; now right].
Defined.

Lemma C8_witness :
  exists delta,
    snd (snd crashed_run) = [] ++ delta
    /\ error (fst (snd crashed_run)) = Some UNKNOWN_ERROR_MESSAGE
    /\ (validateFile clip_mp4 = Threw (JsOther "abort") /\ calls delta = []
        \/ validateFile clip_mp4 = Ok tt /\ failures delta = [JsOther "abort"]).
Proof.
  apply (C8_failure_surfaces crashing clip_mp4 no_options initial_store []
           (Threw (JsOther "abort")) (snd crashed_run)).
  vm_compute. reflexivity.
Defined.

Lemma C9_witness :
  loadFFmpeg obliging (warm, []) = (Ok tt, (warm, []))
  /\ (isLoading (fst (snd cold_load)) = false
      /\ exists work,
           snd (snd cold_load)
           = [] ++ [EvWrite (W_isLoading true); EvWrite (W_error None)]
                ++ work ++ [EvWrite (W_isLoading false)]
           /\ loading_writes work = []
           /\ calls work <> []
           /\ failures work = []
           /\ exists i coreURL wasmURL,
                calls work = load_calls i coreURL wasmURL
                /\ created_engines work = [i]
                /\ asset_urls work = [coreURL; wasmURL]
                /\ loaded_engines work = [i]
                /\ ffmpeg (fst (snd cold_load)) = Some i
                /\ isLoaded (fst (snd cold_load)) = true)
  /\ (isLoading (fst (snd failed_load)) = false
      /\ exists work,
           snd (snd failed_load)
           = [] ++ [EvWrite (W_isLoading true); EvWrite (W_error None)]
                ++ work ++ [EvWrite (W_isLoading false)]
           /\ loading_writes work = []
           /\ calls work <> []
           /\ failures work = [JsError "wasm"]
           /\ failed_calls work = [last (calls work) ImportFFmpeg]
           /\ (exists i coreURL wasmURL,
                 (exists rest, load_calls i coreURL wasmURL = calls work ++ rest)
                 /\ (exists more, [i] = created_engines work ++ more)
                 /\ (exists more, [coreURL; wasmURL] = asset_urls work ++ more))
           /\ ffmpeg (fst (snd failed_load)) = ffmpeg initial_store
           /\ isLoaded (fst (snd failed_load)) = isLoaded initial_store
           /\ loaded_engines work = []
           /\ error (fst (snd failed_load)) = Some LOAD_ERROR_MESSAGE)
  /\ (length (loaded_engines (snd (snd (serve busy_day obliging (initial_store, [])))))
      <= 1)%nat.
Proof.
  destruct (C9_engine_once obliging) as (A & B & C).
  destruct (C9_engine_once crashing_load) as (_ & B' & _).
  split; [|split; [|split]].
  - exact (A warm [] 1%nat eq_refl eq_refl).
  - assert (E : loadFFmpeg obliging (initial_store, []) =
                (Ok tt, snd cold_load)) by (vm_compute; reflexivity).
    exact (B initial_store [] _ _ eq_refl E).
  - assert (E : loadFFmpeg crashing_load (initial_store, []) =
                (Threw (JsError "wasm"), snd failed_load))
      by (vm_compute; reflexivity).
    exact (B' initial_store [] _ _ eq_refl E).
  - exact (proj1 (C busy_day)).
Defined.

Lemma C10_witness :
  inputName clip_mp4 = "input.mp4"
  /\ inputName archive_mp4 = "input.Mp4"
  /\ inputName clip = "input.clip"
  /\ inputName dotted = "input.mp4"
  /\ exists delta,
       snd (snd clip_run) = [] ++ delta
       /\ written_paths delta = ["input.clip"].
Proof.
  destruct (C10_input_name clip_mp4) as (A1 & _).
  destruct (C10_input_name archive_mp4) as (A2 & _).
  destruct (C10_input_name clip) as (_ & D & _ & _ & W).
  destruct (C10_input_name dotted) as (_ & _ & T & _).
  split; [|split; [|split; [|split]]].
  - apply (A1 "clip" "mp4"); [reflexivity | | discriminate].
    intros c H. simpl in H. intuition (subst; discriminate).
  - apply (A2 "trip.2024" "Mp4"); [reflexivity | | discriminate].
    intros c H. simpl in H. intuition (subst; discriminate).
  - apply D; [|discriminate].
    intros c H. simpl in H. intuition (subst; discriminate).
  - apply T. right. now exists "holiday.2024".
  - apply (W obliging no_options initial_store []
             {| blob := blob sample_gif; url := "blob:gif"; size := 3 |}
             (snd clip_run)).
    vm_compute. reflexivity.
Defined.

(** * Further properties of the code *)

(** ** Drop filter, download name and sizes *)

Lemma supported_formats_are_video (t : string) :
  In t SUPPORTED_FORMATS -> startsWith t "video/" = true.
Proof.
  unfold SUPPORTED_FORMATS. cbn [In].
  intros [<-|[<-|[<-|[<-|[]]]]]; reflexivity.
Qed.

(** X1. Whatever validateFile does not refuse for its format, the drop
    zone lets in: its filter is at least as wide as the format check. *)
Theorem isVideoFile_admits_supported (file : File) :
  validateFile file <> Threw UnsupportedFormatError ->
  isVideoFile file = true.
Proof.
  unfold validateFile, isVideoFile. intros H.
  destruct (negb _ && negb _)%bool eqn:F; [now elim H|].
  apply andb_false_iff in F. rewrite !negb_false_iff in F.
  destruct F as [F|F].
  - apply includes_In, supported_formats_are_video in F. now rewrite F.
  - rewrite F. apply orb_true_r.
Qed.

Lemma no_dot_dotless (s : string) : no_dot s = true <-> dotless s.
Proof.
  unfold dotless. induction s as [|c s IH]; cbn [no_dot list_ascii_of_string In].
  - split; [intros _ c [] | reflexivity].
  - rewrite andb_true_iff, negb_true_iff, IH. split.
    + intros [N D] c' [<-|H]; [|now apply D].
      intros ->. discriminate.
    + intros D. split; [|intros c' H; apply D; now right].
      destruct (Ascii.eqb_spec c "."%char) as [->|]; [|reflexivity].
      now elim (D "."%char); [left|].
Qed.

Lemma no_dot_with_dot (p q : string) : no_dot (p ++ "." ++ q) = false.
Proof.
  induction p as [|c p IH]; simpl in *; [reflexivity|].
  rewrite IH. apply andb_false_r.
Qed.

Lemma extension_here_with_dot (c : ascii) (p q : string) :
  extension_here (String c (p ++ "." ++ q)) = false.
Proof.
  change (extension_here (String c (p ++ "." ++ q)))
    with (Ascii.eqb c "."
          && match (p ++ "." ++ q)%string with
             | EmptyString => false
             | String _ _ => no_dot (p ++ "." ++ q)
             end).
  rewrite no_dot_with_dot.
  destruct (p ++ "." ++ q)%string; apply andb_false_r.
Qed.

Lemma gif_name_extension (stem ext : string) :
  ext <> EmptyString -> dotless ext ->
  gif_name (stem ++ "." ++ ext) = (stem ++ ".gif")%string.
Proof.
  intros N D. apply no_dot_dotless in D.
  induction stem as [|c stem IH].
  - cbn [String.append gif_name extension_here]. rewrite D.
    destruct ext; [now elim N | reflexivity].
  - change ((String c stem ++ "." ++ ext)%string)
      with (String c (stem ++ "." ++ ext)).
    cbn [gif_name]. now rewrite extension_here_with_dot, IH.
Qed.

Lemma gif_name_dotless (name : string) : dotless name -> gif_name name = name.
Proof.
  intros D. apply no_dot_dotless in D.
  induction name as [|c name IH]; [reflexivity|].
  cbn [no_dot] in D. apply andb_true_iff in D. destruct D as [N D].
  cbn [gif_name extension_here]. apply negb_true_iff in N. rewrite N.
  cbn [andb]. now rewrite IH.
Qed.

Lemma gif_name_trailing_dot (stem : string) :
  gif_name (stem ++ ".") = (stem ++ ".")%string.
Proof.
  induction stem as [|c stem IH]; [reflexivity|].
  change ((String c stem ++ ".")%string) with (String c (stem ++ "." ++ "")).
  cbn [gif_name]. rewrite extension_here_with_dot.
  change ((stem ++ "." ++ "")%string) with ((stem ++ ".")%string).
  now rewrite IH.
Qed.

(** X2. The download name: when the file name is a stem, a dot and a
    non-empty last piece without dots, that piece is replaced by gif; a
    name without a dot, or ending in a dot, is kept as it is (and gets no
    gif extension). *)
Theorem gif_name_spec (name : string) :
  (forall stem ext,
      name = (stem ++ "." ++ ext)%string -> ext <> EmptyString -> dotless ext ->
      gif_name name = (stem ++ ".gif")%string)
  /\ (dotless name -> gif_name name = name)
  /\ (forall stem, name = (stem ++ ".")%string -> gif_name name = name).
Proof.
  split; [|split].
  - intros stem ext -> N D. now apply gif_name_extension.
  - apply gif_name_dotless.
  - intros stem ->. apply gif_name_trailing_dot.
Qed.

(** X3. Renaming a download name again changes nothing. *)
Theorem gif_name_idempotent (name : string) :
  gif_name (gif_name name) = gif_name name.
Proof.
  destruct (last_dot name) as [D|(p & q & -> & D)].
  - now rewrite !(gif_name_dotless name D).
  - destruct q as [|c q].
    + change ((p ++ "." ++ "")%string) with ((p ++ ".")%string).
      now rewrite !(gif_name_trailing_dot p).
    + rewrite gif_name_extension by (assumption || discriminate).
      apply (gif_name_extension p "gif"); [discriminate|].
      intros c' H. cbn in H. intuition (subst; discriminate).
Qed.

Lemma fold_case_dotless (s : string) : dotless (fold_case s) -> dotless s.
Proof.
  unfold dotless. induction s as [|c s IH]; cbn [fold_case list_ascii_of_string In].
  - intros _ c [].
  - intros D c' [<-|H].
    + intros ->. now apply (D "."%char); [left|].
    + apply IH; [|assumption]. intros c'' H'. apply D. now right.
Qed.

Lemma known_extension_shape (ext known : string) :
  In known VIDEO_EXTENSIONS -> fold_case ext = fold_case known ->
  ext <> EmptyString /\ dotless ext.
Proof.
  intros K E. split.
  - intros ->. cbn in K. intuition (subst; discriminate).
  - apply fold_case_dotless. rewrite E. intros c H.
    cbn in K. intuition (subst; cbn in H; intuition (subst; discriminate)).
Qed.

(** X4. A file accepted for its extension keeps that extension, in its
    own spelling, in the name written into the engine, and is downloaded
    under its stem with the extension gif. *)
Theorem accepted_extension_names (file : File) :
  ends_with_video_extension (file_name file) ->
  exists stem ext known,
    file_name file = (stem ++ "." ++ ext)%string
    /\ In known VIDEO_EXTENSIONS
    /\ fold_case ext = fold_case known
    /\ inputName file = ("input." ++ ext)%string
    /\ gif_name (file_name file) = (stem ++ ".gif")%string.
Proof.
  intros (stem & ext & known & E & K & F).
  destruct (known_extension_shape ext known K F) as [N D].
  exists stem, ext, known. repeat split; try assumption.
  - unfold inputName. rewrite inputExt_last_segment, E.
    rewrite last_segment_after_dot, last_segment_dotless by assumption.
    apply String.eqb_neq in N. now rewrite N.
  - rewrite E. now apply gif_name_extension.
Qed.

Lemma tenths_formula (size : Z) (unit : positive) :
  Qfloor (inject_Z size / inject_Z (Zpos unit) * 10 + (1 # 2))%Q =
  (20 * size + Zpos unit) / (2 * Zpos unit).
Proof.
  transitivity (Qfloor ((20 * size + Zpos unit) # (2 * unit))); [|reflexivity].
  apply Qfloor_comp. unfold Qeq, Qdiv, Qmult, Qplus, Qinv, inject_Z.
  cbn [Qnum Qden]. lia.
Qed.

Lemma toFixed1_ratio (q : Q) (size : Z) (half : positive) :
  0 <= size ->
  (q == inject_Z size / inject_Z (Zpos (2 * half)))%Q ->
  let n := (10 * size + Zpos half) / Zpos (2 * half) in
  toFixed1 q =
  (String_of_number (n / 10) ++ "." ++ String_of_number (n mod 10))%string.
Proof.
  intros S E n. unfold toFixed1.
  assert (P : Qle_bool 0 q = true).
  { apply Qle_bool_iff. rewrite E. unfold Qle, Qdiv, Qmult, Qinv, inject_Z.
    cbn [Qnum Qden]. lia. }
  rewrite P. cbn [negb].
  assert (F : Qfloor (q * 10 + (1 # 2))%Q = n).
  { rewrite (Qfloor_comp _ (inject_Z size / inject_Z (Zpos (2 * half)) * 10 + (1 # 2))%Q)
      by now rewrite E.
    rewrite tenths_formula. unfold n.
    replace (20 * size + Zpos (2 * half)) with (2 * (10 * size + Zpos half)) by lia.
    apply Z.div_mul_cancel_l; lia. }
  now rewrite F.
Qed.

(** X5. The size shown for [size] bytes: below 1 MiB the tenths of KiB
    nearest to it (half a tenth rounds up), with the unit KB, which can read
    1024.0 KB; from 1 MiB on, the tenths of MiB with the unit MB.  What is
    shown is off by at most half a tenth of the unit. *)
Theorem sizeStr_spec (size : Z) :
  0 <= size ->
  let unit := if size <? 1048576 then 1024 else 1048576 in
  let n := (10 * size + unit / 2) / unit in
  sizeStr size =
    (String_of_number (n / 10) ++ "." ++ String_of_number (n mod 10)
     ++ (if (size <? 1048576)%Z then " KB" else " MB"))%string
  /\ Z.abs (unit * n - 10 * size) <= unit / 2
  /\ (size < 1048576 -> n <= 10240)
  /\ (1048576 <= size -> 10 <= n).
Proof.
  intros S unit n. unfold sizeStr. change (1024 * 1024) with 1048576.
  subst n unit. destruct (Z.ltb_spec size 1048576) as [L|L].
  - rewrite (toFixed1_ratio _ size 512 S) by reflexivity.
    change (1024 / 2) with 512. change (Z.pos (2 * 512)) with 1024. change (Z.pos 512) with 512.
    rewrite !string_app_assoc.
    repeat split; [| |intros]; try (Z.div_mod_to_equations; lia).
  - rewrite (toFixed1_ratio _ size 524288 S).
    + change (1048576 / 2) with 524288. change (Z.pos (2 * 524288)) with 1048576.
      change (Z.pos 524288) with 524288.
      rewrite !string_app_assoc.
      repeat split; [| |intros]; try (Z.div_mod_to_equations; lia).
    + unfold Qeq, Qdiv, Qmult, Qinv, inject_Z. cbn [Qnum Qden]. lia.
Qed.

(** X7. The quality buttons tell the truth: each preset has exactly one
    button, in the order low, medium, high, max, and the width a button
    announces is the width its preset scales to. *)
Theorem qualityOptions_match_settings :
  map q_value qualityOptions = [low; medium; high; original]
  /\ forall opt,
       In opt qualityOptions ->
       startsWith (q_desc opt)
         (String_of_number (width (QUALITY_SETTINGS (q_value opt))) ++ "px")
       = true.
Proof.
  split; [reflexivity|].
  intros opt H. cbn in H. intuition (subst; reflexivity).
Qed.

(** ** The anatomy of a conversion *)

Lemma convertToGif_anatomy (o : oracle) (file : File)
    (options : ConversionOptions) (st : Store) (tr : list event) :
  post (convertToGif file options) o (st, tr) (fun r w' =>
    exists delta,
      snd w' = tr ++ delta
      /\ revocations delta = []
      /\ (length (object_urls delta) <= 1)%nat
      /\ (selectedFile (fst w') = selectedFile st
          /\ result (fst w') = result st
          /\ toast (fst w') = toast st
          /\ isDragOver (fst w') = isDragOver st
          /\ selectedQuality (fst w') = selectedQuality st
          /\ toasts delta = [] /\ timers delta = [])
      /\ (isConverting (fst w') = false
          /\ (isLoading (fst w') = false \/ isLoading (fst w') = isLoading st)
          /\ (engine_ready st = true ->
              ffmpeg (fst w') = ffmpeg st /\ engine_ready (fst w') = true))
      /\ match r with
         | Ok res =>
             (blob_type (blob res) = "image/gif"
              /\ size res = blob_size (blob res)
              /\ read_back delta = [blob_data (blob res)]
              /\ object_urls delta = [(blob res, url res)])
             /\ deletions delta = [inputName file; outputName]
             /\ error_writes delta = (if engine_ready st then [None] else [None; None])
             /\ exists i data,
                  ffmpeg (fst w') = Some i /\ fetched delta = [data]
                  /\ (engine_ready st = true
                      /\ calls delta = transcode_calls i file options data res
                      \/ engine_ready st = false
                         /\ exists coreURL wasmURL,
                              calls delta =
                              load_calls i coreURL wasmURL
                              ++ transcode_calls i file options data res)
         | Threw e =>
             (deletions delta = []
              \/ (exists i, failed_calls delta = [DeleteFile i (inputName file)])
                 /\ deletions delta = [inputName file]
              \/ (exists i, failed_calls delta = [DeleteFile i outputName])
                 /\ deletions delta = [inputName file; outputName])
             /\ (object_urls delta <> [] -> deletions delta <> [])
             /\ (error_writes delta = [None; Some (error_message e)]
                 /\ loading_writes delta = []
                 \/ error_writes delta =
                    [None; None; Some LOAD_ERROR_MESSAGE; Some (error_message e)]
                    /\ loading_writes delta = [true; false]
                    /\ loaded_engines delta = []
                 \/ error_writes delta = [None; None; Some (error_message e)]
                    /\ loading_writes delta = [true; false]
                    /\ length (loaded_engines delta) = 1%nat)
         end).
Proof.
  unfold convertToGif. destruct st as [ff ? ? ? ? ld ? ? ? ? ? ?].
  steps.
  destruct ff as [i|]; [destruct ld|];
    (destruct (validateFile file) as [[]|e0]; steps; added; tidy;
     observe_more; close).
Qed.

Lemma same_delta (tr d d' l : list event) : l = tr ++ d -> l = tr ++ d' -> d = d'.
Proof. intros -> E. now apply app_inv_head in E. Qed.

(** X8. A successful conversion makes these calls and no other, in this
    order: on a ready engine the eight calls of the transcoding (import,
    fetch, write, exec, read, object URL, two deletions), all on the engine of
    the store and with the bytes fetched; on an engine not yet ready, the
    eight calls of the load first. *)
Theorem successful_run_calls (o : oracle) (file : File)
    (options : ConversionOptions) (st : Store) (tr : list event)
    (res : ConversionResult) (w' : world) :
  convertToGif file options o (st, tr) = (Ok res, w') ->
  exists delta i data,
    snd w' = tr ++ delta
    /\ ffmpeg (fst w') = Some i
    /\ fetched delta = [data]
    /\ (engine_ready st = true ->
        ffmpeg st = Some i
        /\ calls delta = transcode_calls i file options data res)
    /\ (engine_ready st = false ->
        exists coreURL wasmURL,
          calls delta = load_calls i coreURL wasmURL
                        ++ transcode_calls i file options data res).
Proof.
  intros E.
  destruct (post_elim _ _ _ _ (convertToGif_anatomy o file options st tr) _ _ E)
    as (delta & El & _ & _ & _ & (_ & _ & K) & _ & _ & _ & i & data & F & Fe & C).
  exists delta, i, data. repeat split; try assumption.
  - destruct (K H) as [Ef _]. congruence.
  - destruct C as [[_ C]|[R _]]; [assumption | congruence].
  - intros H. destruct C as [[R _]|[_ C]]; [congruence | assumption].
Qed.

(** X9. The result of a successful conversion is made of what the engine
    and the browser gave: its blob holds the bytes read from output.gif
    under the type image/gif, its size is their number, and its URL is the
    one object URL created, for that blob. *)
Theorem result_packaging (o : oracle) (file : File)
    (options : ConversionOptions) (st : Store) (tr : list event)
    (res : ConversionResult) (w' : world) :
  convertToGif file options o (st, tr) = (Ok res, w') ->
  exists delta,
    snd w' = tr ++ delta
    /\ read_back delta = [blob_data (blob res)]
    /\ blob_type (blob res) = "image/gif"
    /\ size res = Z.of_nat (length (blob_data (blob res)))
    /\ object_urls delta = [(blob res, url res)].
Proof.
  intros E.
  destruct (post_elim _ _ _ _ (convertToGif_anatomy o file options st tr) _ _ E)
    as (delta & El & _ & _ & _ & _ & (T & S & R & U) & _).
  exists delta. now repeat split.
Qed.

(** X10. The virtual files: a successful conversion deletes the input file
    and then output.gif.  A failed one deletes nothing, unless it is a
    deletion that failed; so a conversion that fails in exec or in reading
    leaves the input it wrote inside the engine. *)
Theorem virtual_files_cleanup (o : oracle) (file : File)
    (options : ConversionOptions) (st : Store) (tr : list event)
    (r : completion ConversionResult) (w' : world) :
  convertToGif file options o (st, tr) = (r, w') ->
  exists delta,
    snd w' = tr ++ delta
    /\ match r with
       | Ok _ =>
           written_paths delta = [inputName file]
           /\ deletions delta = [inputName file; outputName]
       | Threw _ =>
           deletions delta = []
           \/ (exists i, failed_calls delta = [DeleteFile i (inputName file)])
              /\ deletions delta = [inputName file]
           \/ (exists i, failed_calls delta = [DeleteFile i outputName])
              /\ deletions delta = [inputName file; outputName]
       end.
Proof.
  intros E.
  destruct (post_elim _ _ _ _ (convertToGif_anatomy o file options st tr) _ _ E)
    as (delta & El & _ & _ & _ & _ & H).
  destruct (post_elim _ _ _ _ (convertToGif_run o file options st tr) _ _ E)
    as (delta' & El' & H').
  rewrite (same_delta _ _ _ _ El' El) in H'.
  exists delta. split; [assumption|].
  destruct r as [res|e].
  - destruct H as (_ & D & _). destruct H' as (_ & _ & _ & _ & W). now split.
  - now destruct H as (D & _).
Qed.

(** X11. convertToGif never revokes an object URL and creates at most one.
    When it fails after creating one, the failure is that of a deletion, and
    the URL is neither returned nor revoked. *)
Theorem object_url_never_revoked (o : oracle) (file : File)
    (options : ConversionOptions) (st : Store) (tr : list event)
    (r : completion ConversionResult) (w' : world) :
  convertToGif file options o (st, tr) = (r, w') ->
  exists delta,
    snd w' = tr ++ delta
    /\ revocations delta = []
    /\ (length (object_urls delta) <= 1)%nat
    /\ match r with
       | Ok res => object_urls delta = [(blob res, url res)]
       | Threw _ =>
           object_urls delta <> [] ->
           exists i path, failed_calls delta = [DeleteFile i path]
       end.
Proof.
  intros E.
  destruct (post_elim _ _ _ _ (convertToGif_anatomy o file options st tr) _ _ E)
    as (delta & El & R & L & _ & _ & H).
  exists delta. repeat split; try assumption.
  destruct r as [res|e].
  - now destruct H as ((_ & _ & _ & U) & _).
  - destruct H as (D & N & _). intros U. apply N in U.
    destruct D as [D|[[[i F] _]|[[i F] _]]]; [now elim U | now exists i, (inputName file) | now exists i, outputName].
Qed.

(** X12. The trail of the error state in a failed conversion: cleared at
    the start (and again by a load), then the message of what was thrown.
    When it is the load that failed, the load's own message is assigned first
    and overwritten at once, so it is never what remains. *)
Theorem error_trail (o : oracle) (file : File)
    (options : ConversionOptions) (st : Store) (tr : list event)
    (e : exn) (w' : world) :
  convertToGif file options o (st, tr) = (Threw e, w') ->
  exists delta,
    snd w' = tr ++ delta
    /\ error (fst w') = Some (error_message e)
    /\ (error_writes delta = [None; Some (error_message e)]
        /\ loading_writes delta = []
        \/ error_writes delta =
           [None; None; Some LOAD_ERROR_MESSAGE; Some (error_message e)]
           /\ loading_writes delta = [true; false]
           /\ loaded_engines delta = []
        \/ error_writes delta = [None; None; Some (error_message e)]
           /\ loading_writes delta = [true; false]
           /\ length (loaded_engines delta) = 1%nat).
Proof.
  intros E.
  destruct (post_elim _ _ _ _ (convertToGif_anatomy o file options st tr) _ _ E)
    as (delta & El & _ & _ & _ & _ & _ & _ & H).
  destruct (post_elim _ _ _ _ (convertToGif_run o file options st tr) _ _ E)
    as (delta' & _ & M & _).
  exists delta. now repeat split.
Qed.

(** X13. Whatever happens, convertToGif leaves the refs of the component
    alone and the orchestrator idle: with no load pending before, neither
    loading nor converting is set afterwards, so a selected file can be
    converted again; and an engine that was ready is still the same and
    ready. *)
Theorem frame_and_flags (o : oracle) (file : File)
    (options : ConversionOptions) (st : Store) (tr : list event)
    (r : completion ConversionResult) (w' : world) :
  convertToGif file options o (st, tr) = (r, w') ->
  (selectedFile (fst w') = selectedFile st
   /\ result (fst w') = result st
   /\ toast (fst w') = toast st
   /\ isDragOver (fst w') = isDragOver st
   /\ selectedQuality (fst w') = selectedQuality st)
  /\ (isLoading st = false ->
      isProcessing (fst w') = false
      /\ canConvert (fst w') = match selectedFile st with
                               | Some _ => true
                               | None => false
                               end)
  /\ (engine_ready st = true ->
      ffmpeg (fst w') = ffmpeg st /\ engine_ready (fst w') = true).
Proof.
  intros E.
  destruct (post_elim _ _ _ _ (convertToGif_anatomy o file options st tr) _ _ E)
    as (delta & El & _ & _ & (A1 & A2 & A3 & A4 & A5 & _) & (C & L & K) & _).
  assert (A := A1).
  split; [now repeat split|]. split; [|assumption].
  intros L0. assert (P : isProcessing (fst w') = false).
  { unfold isProcessing. rewrite C. destruct L as [->| ->]; [reflexivity|].
    now rewrite L0. }
  split; [assumption|]. unfold canConvert. rewrite P.
  rewrite A. now destruct (selectedFile st).
Qed.

(** ** Loading again, converting from the component *)

(** X14. A load that failed is not remembered: it leaves its message in
    the error state and the engine missing, and the next call of loadFFmpeg
    starts over with new calls.  After a load that succeeded the next call
    does nothing at all. *)
Theorem load_again (o : oracle) (st : Store) (tr : list event)
    (r r2 : completion unit) (w1 w2 : world) :
  engine_ready st = false ->
  loadFFmpeg o (st, tr) = (r, w1) ->
  loadFFmpeg o w1 = (r2, w2) ->
  match r with
  | Ok _ => r2 = Ok tt /\ w2 = w1
  | Threw _ =>
      error (fst w1) = Some LOAD_ERROR_MESSAGE
      /\ engine_ready (fst w1) = false
      /\ exists work,
           snd w2 = snd w1 ++ [EvWrite (W_isLoading true); EvWrite (W_error None)]
                           ++ work ++ [EvWrite (W_isLoading false)]
           /\ calls work <> []
  end.
Proof.
  intros R E1 E2.
  destruct (post_elim _ _ _ _ (loadFFmpeg_loading o st tr R) _ _ E1)
    as (_ & work & _ & _ & _ & H).
  destruct w1 as [st1 tr1]. cbn [fst snd] in *.
  destruct r as [[]|e].
  - destruct H as (i & F & L & _).
    rewrite loadFFmpeg_ready in E2 by (unfold engine_ready; now rewrite F).
    now injection E2 as <- <-.
  - destruct H as (F & L & _ & _ & M).
    assert (R1 : engine_ready st1 = false)
      by (unfold engine_ready in *; now rewrite F, L).
    split; [assumption|]. split; [assumption|].
    destruct (post_elim _ _ _ _ (loadFFmpeg_loading o st1 tr1 R1) _ _ E2)
      as (_ & work2 & El & _ & C & _).
    now exists work2.
Qed.

Lemma or_string_some (m d : string) :
  or_string (Some m) d = if String.eqb m EmptyString then d else m.
Proof. now destruct m. Qed.

Lemma handleConvert_unfold (o : oracle) (st : Store) (tr : list event)
    (file : File) :
  selectedFile st = Some file ->
  handleConvert o (st, tr) =
  match convertToGif file (no_override (Some (selectedQuality st)) None)
          o (st, tr) with
  | (Ok res, w1) =>
      (assign (W_result (Some res)) ;;
       showToast "Konwersja zakończona pomyślnie!" success) o w1
  | (Threw _, w1) =>
      (err <- read error ;;
       showToast (or_string err "Wystąpił błąd podczas konwersji") failure) o w1
  end.
Proof.
  intros H. unfold handleConvert, try_catch.
  unfold bind at 1, read at 1. cbn [fst]. rewrite H.
  unfold bind at 1, read at 1. cbn [fst].
  unfold bind at 1. unfold no_override.
  now destruct (convertToGif _ _ o (st, tr)) as [[res|e] [s1 t1]].
Qed.

(** X15. What the user gets from the convert button, with [file] selected:
    when the conversion returns a result, that result on display and the
    toast of success; when it throws, the result as before and a toast
    of failure carrying the message of what was thrown (a fixed text when
    that is empty); either way one toast and one timer of four seconds, and
    nothing thrown.  A file that fails validation causes no call at all. *)
Theorem handleConvert_outcome (o : oracle) (st : Store) (tr : list event)
    (file : File) (r : completion ConversionResult) (w1 w' : world)
    (done : completion unit) :
  selectedFile st = Some file ->
  convertToGif file (no_override (Some (selectedQuality st)) None) o (st, tr)
  = (r, w1) ->
  handleConvert o (st, tr) = (done, w') ->
  done = Ok tt
  /\ (exists d, snd w' = tr ++ d /\ timers d = [4000]
                /\ length (toasts d) = 1%nat
                /\ (validateFile file <> Ok tt -> calls d = []))
  /\ match r with
     | Ok res =>
         result (fst w') = Some res
         /\ toast (fst w') = Some ("Konwersja zakończona pomyślnie!", success)
     | Threw e =>
         result (fst w') = result st
         /\ toast (fst w') =
            Some (if String.eqb (error_message e) EmptyString
                  then "Wystąpił błąd podczas konwersji"
                  else error_message e, failure)
     end.
Proof.
  intros Hs E1 E2.
  destruct (post_elim _ _ _ _ (convertToGif_anatomy o file _ st tr) _ _ E1)
    as (delta & El & _ & _ & (_ & Er & _ & _ & _ & To & Ti) & _).
  destruct (post_elim _ _ _ _ (convertToGif_run o file _ st tr) _ _ E1)
    as (delta' & El' & H).
  rewrite <- (same_delta _ _ _ _ El El') in H. clear delta' El'.
  destruct w1 as [st1 tr1]. cbn [fst snd] in *. subst tr1.
  rewrite (handleConvert_unfold o st tr file Hs), E1 in E2.
  unfold bind, assign, showToast, emit, read in E2.
  cbn [fst snd apply_write] in E2.
  destruct r as [res|e]; injection E2 as <- <-; cbn [fst snd];
    (split; [reflexivity|]); (split; [|split; [assumption || reflexivity|]]).
  - eexists. split; [regroup|].
    unfold timers, toasts, calls in *.
    rewrite !flat_map_app, To, Ti. cbn [flat_map app length].
    repeat split. intros N. now destruct H as (V & _).
  - reflexivity.
  - eexists. split; [regroup|].
    unfold timers, toasts, calls in *.
    rewrite !flat_map_app, To, Ti. cbn [flat_map app length].
    repeat split. intros N. rewrite app_nil_r.
    destruct H as (_ & [[_ C]|[V _]] & _); [assumption | now elim N].
  - cbn [toast set_toast]. destruct H as (M & _). rewrite M.
    now rewrite or_string_some.
Qed.

(** ** Object URLs over the life of the component *)

(** X16. Over any sequence of gestures (drag, drop, pick, quality, clear,
    convert, download) ended by the unmount hook, no object URL is revoked
    twice, provided the browser never hands out a URL that was revoked. *)
Theorem no_url_revoked_twice (o : oracle) (gs : list gesture)
    (st : Store) (tr : list event) :
  fresh_urls o ->
  tidy_urls st tr ->
  NoDup (revocations (snd (snd ((session gs ;; onUnmounted) o (st, tr))))).
Proof.
  intros Hf H.
  assert (P : post (session gs ;; onUnmounted) o (st, tr) (fun _ w' =>
                NoDup (revocations (snd w')))).
  { apply post_bind.
    eapply post_consequence; [now apply session_tidy|].
    intros r [st1 tr1] (-> & N & L). cbn [fst snd] in *.
    unfold onUnmounted. steps.
    destruct (result st1) as [res|]; steps; cbn [snd]; [|assumption].
    rewrite revocations_app. destruct L as [L _].
    apply NoDup_app; [assumption | repeat constructor; intros [] |].
    intros a Ha [<-|[]]. now apply L. }
  exact P.
Qed.

(** X17. After any sequence of gestures, a result on display has a URL
    that was not revoked and a selected file beside it, so the download
    button yields that URL under the file's name with the extension gif
    instead of its own; with no result on display it yields nothing. *)
Theorem download_is_live (o : oracle) (gs : list gesture)
    (st : Store) (tr : list event) :
  fresh_urls o ->
  tidy_urls st tr ->
  let w := snd (session gs o (st, tr)) in
  match result (fst w) with
  | Some res =>
      ~ In (url res) (revocations (snd w))
      /\ exists file,
           selectedFile (fst w) = Some file
           /\ downloadGif o w =
              (Ok (Some {| href := url res;
                           download := gif_name (file_name file) |}), w)
  | None => downloadGif o w = (Ok None, w)
  end.
Proof.
  intros Hf H w.
  destruct (session_tidy o gs Hf st tr H) as (_ & _ & L).
  fold w in L. unfold downloadGif, bind, read, ret.
  destruct (result (fst w)) as [res|]; [|reflexivity].
  destruct L as [L S]. split; [assumption|].
  destruct (selectedFile (fst w)) as [file|]; [|now elim S].
  now exists file.
Qed.

(** ** The further properties at sample inputs *)

Lemma isVideoFile_admits_supported_witness : isVideoFile huge_mov = true.
Proof.
  apply (isVideoFile_admits_supported huge_mov). vm_compute. discriminate.
Defined.

Lemma gif_name_spec_witness :
  gif_name (file_name archive_mp4) = "trip.2024.gif"
  /\ gif_name (file_name clip) = "clip".
Proof.
  split.
  - apply (proj1 (gif_name_spec (file_name archive_mp4)) "trip.2024" "Mp4").
    + reflexivity.
    + discriminate.
    + intros c H. simpl in H. intuition (subst; discriminate).
  - apply (proj1 (proj2 (gif_name_spec (file_name clip)))).
    intros c H. simpl in H. intuition (subst; discriminate).
Defined.

Lemma accepted_extension_names_witness :
  exists stem ext known,
    file_name archive_mp4 = (stem ++ "." ++ ext)%string
    /\ In known VIDEO_EXTENSIONS
    /\ fold_case ext = fold_case known
    /\ inputName archive_mp4 = ("input." ++ ext)%string
    /\ gif_name (file_name archive_mp4) = (stem ++ ".gif")%string.
Proof.
  apply (accepted_extension_names archive_mp4).
  exists "trip.2024", "Mp4", "mp4". simpl. auto.
Defined.

Lemma sizeStr_spec_witness :
  sizeStr 1048575 = "1024.0 KB" /\ sizeStr 1048576 = "1.0 MB".
Proof.
  split.
  - exact (proj1 (sizeStr_spec 1048575 ltac:(lia))).
  - exact (proj1 (sizeStr_spec 1048576 ltac:(lia))).
Defined.

Lemma successful_run_calls_witness :
  exists delta i data,
    snd (snd warm_run) = [] ++ delta
    /\ ffmpeg (fst (snd warm_run)) = Some i
    /\ fetched delta = [data]
    /\ (engine_ready warm = true ->
        ffmpeg warm = Some i
        /\ calls delta = transcode_calls i clip_mp4 medium_options data sample_gif)
    /\ (engine_ready warm = false ->
        exists coreURL wasmURL,
          calls delta = load_calls i coreURL wasmURL
                        ++ transcode_calls i clip_mp4 medium_options data sample_gif).
Proof.
  apply (successful_run_calls obliging clip_mp4 medium_options warm []
           sample_gif (snd warm_run)).
  vm_compute. reflexivity.
Defined.

Lemma result_packaging_witness :
  exists delta,
    snd (snd medium_run) = [] ++ delta
    /\ read_back delta = [blob_data (blob sample_gif)]
    /\ blob_type (blob sample_gif) = "image/gif"
    /\ size sample_gif = Z.of_nat (length (blob_data (blob sample_gif)))
    /\ object_urls delta = [(blob sample_gif, url sample_gif)].
Proof.
  apply (result_packaging obliging clip_mp4 medium_options initial_store []
           sample_gif (snd medium_run)).
  vm_compute. reflexivity.
Defined.

Lemma virtual_files_cleanup_witness :
  exists delta,
    snd (snd crashed_run) = [] ++ delta
    /\ (deletions delta = []
        \/ (exists i, failed_calls delta = [DeleteFile i (inputName clip_mp4)])
           /\ deletions delta = [inputName clip_mp4]
        \/ (exists i, failed_calls delta = [DeleteFile i outputName])
           /\ deletions delta = [inputName clip_mp4; outputName]).
Proof.
  apply (virtual_files_cleanup crashing clip_mp4 no_options initial_store []
           (Threw (JsOther "abort")) (snd crashed_run)).
  vm_compute. reflexivity.
Defined.

Lemma object_url_never_revoked_witness :
  exists delta,
    snd (snd medium_run) = [] ++ delta
    /\ revocations delta = []
    /\ (length (object_urls delta) <= 1)%nat
    /\ object_urls delta = [(blob sample_gif, url sample_gif)].
Proof.
  apply (object_url_never_revoked obliging clip_mp4 medium_options
           initial_store [] (Ok sample_gif) (snd medium_run)).
  vm_compute. reflexivity.
Defined.

Lemma error_trail_witness :
  exists delta,
    snd (snd offline_run) = [] ++ delta
    /\ error (fst (snd offline_run)) = Some "Failed to fetch"
    /\ (error_writes delta = [None; Some "Failed to fetch"]
        /\ loading_writes delta = []
        \/ error_writes delta =
           [None; None; Some LOAD_ERROR_MESSAGE; Some "Failed to fetch"]
           /\ loading_writes delta = [true; false]
           /\ loaded_engines delta = []
        \/ error_writes delta = [None; None; Some "Failed to fetch"]
           /\ loading_writes delta = [true; false]
           /\ length (loaded_engines delta) = 1%nat).
Proof.
  apply (error_trail offline clip_mp4 no_options initial_store []
           (JsError "Failed to fetch") (snd offline_run)).
  vm_compute. reflexivity.
Defined.

Lemma frame_and_flags_witness :
  isProcessing (fst (snd crashed_convert)) = false
  /\ canConvert (fst (snd crashed_convert)) = true
  /\ result (fst (snd crashed_convert)) = None.
Proof.
  assert (E : convertToGif clip_mp4
                (no_override (Some (selectedQuality selected)) None)
                crashing (selected, [])
              = (fst crashed_convert, snd crashed_convert))
    by (vm_compute; reflexivity).
  destruct (frame_and_flags _ _ _ _ _ _ _ E) as ((_ & R & _) & F & _).
  destruct (F eq_refl) as [P C]. repeat split; assumption.
Defined.

Lemma load_again_witness :
  error (fst (snd offline_load)) = Some LOAD_ERROR_MESSAGE
  /\ engine_ready (fst (snd offline_load)) = false
  /\ exists work,
       snd (snd offline_reload)
       = snd (snd offline_load)
         ++ [EvWrite (W_isLoading true); EvWrite (W_error None)]
         ++ work ++ [EvWrite (W_isLoading false)]
       /\ calls work <> [].
Proof.
  apply (load_again offline initial_store [] (Threw (JsError "Failed to fetch"))
           (fst offline_reload) (snd offline_load) (snd offline_reload)).
  - reflexivity.
  - vm_compute. reflexivity.
  - vm_compute. reflexivity.
Defined.

Lemma handleConvert_outcome_witness :
  fst crashed_click = Ok tt
  /\ result (fst (snd crashed_click)) = None
  /\ toast (fst (snd crashed_click)) = Some (UNKNOWN_ERROR_MESSAGE, failure).
Proof.
  assert (E1 : convertToGif clip_mp4
                 (no_override (Some (selectedQuality selected)) None)
                 crashing (selected, [])
               = (Threw (JsOther "abort"), snd crashed_convert))
    by (vm_compute; reflexivity).
  assert (E2 : handleConvert crashing (selected, [])
               = (fst crashed_click, snd crashed_click))
    by (vm_compute; reflexivity).
  destruct (handleConvert_outcome crashing selected [] clip_mp4 _ _ _ _
              eq_refl E1 E2) as (D & _ & R & T).
  repeat split; assumption.
Defined.

Lemma no_url_revoked_twice_witness :
  NoDup (revocations
           (snd (snd ((session busy_gestures ;; onUnmounted) sincere
                        (initial_store, []))))).
Proof.
  exact (no_url_revoked_twice sincere busy_gestures initial_store []
           sincere_fresh initial_tidy).
Defined.

Lemma download_is_live_witness :
  let w := snd (session drop_and_convert sincere (initial_store, [])) in
  downloadGif sincere w =
  (Ok (Some {| href := "blob:"; download := "trip.2024.gif" |}), w).
Proof.
  intros w.
  pose proof (download_is_live sincere drop_and_convert initial_store []
                sincere_fresh initial_tidy) as H.
  cbv zeta in H. fold w in H.
  assert (R : result (fst w) = Some {| blob := blob sample_gif;
                                        url := "blob:"; size := 3 |})
    by (vm_compute; reflexivity).
  rewrite R in H. destruct H as (_ & file & S & D).
  assert (S' : selectedFile (fst w) = Some archive_mp4)
    by (vm_compute; reflexivity).
  rewrite S' in S. injection S as <-. exact D.
Defined.
